(** * Presence and anti-peeking detector

    A shallow embedding of [PresenceAntiPeekingAlgo]
    (Touchdesigner/presence_detection.py) and the properties of its
    constructor and of its per-frame update [presence].

    Numbers are the program's own: Python [int] is [Z], Python [float] and
    NumPy [float64] are the kernel's binary64 floats, so every product, sum,
    difference and comparison below rounds exactly as the program's does.
    The object [self] is a record; [presence] runs in a state-and-exception
    monad over it, so that an exception raised half-way leaves the
    attributes written so far in place, as in Python.

    The windowing function of SciPy, the FFT helper [helpers.fft_spectrum]
    and the complex magnitude behind [abs] are code outside this repository:
    they are variables of the section [Algo]. *)

From Stdlib Require Import ZArith List Bool Floats Lia.
From Stdlib Require String.
Import ListNotations.

Set Warnings "-inexact-float".

Local Open Scope Z_scope.

(** ** Python values *)

(** Exceptions, by class.  [OtherError] carries the class name of any
    exception that the external helpers may raise besides these. *)
Inductive exn : Type :=
| ValueError
| AttributeError
| OverflowError
| OtherError (cls : String.string).

(** The outcome of an expression: an exception raised, or a value. *)
Definition result (A : Type) : Type := (exn + A)%type.

Definition ok {A : Type} (a : A) : result A := inr a.
Definition throw {A : Type} (e : exn) : result A := inl e.

Definition rbind {A B : Type} (r : result A) (k : A -> result B) : result B :=
  match r with
  | inl e => inl e
  | inr a => k a
  end.

(** A two-dimensional NumPy array: its rows, and its number of columns
    (which an array keeps even when it has no row). *)
Record ndarray2 (A : Type) : Type := mk_ndarray2 {
  ncols : nat;
  rows : list (list A)
}.
Arguments mk_ndarray2 {A} _ _.
Arguments ncols {A} _.
Arguments rows {A} _.

Definition nrows {A : Type} (m : ndarray2 A) : nat := length (rows m).

(** Every row has [ncols] entries: true of every NumPy array. *)
Definition rectangular {A : Type} (m : ndarray2 A) : Prop :=
  Forall (fun r => length r = ncols m) (rows m).

(** A complex number, as real and imaginary part. *)
Definition complex : Type := (float * float)%type.

(** ** The NumPy operations that [presence] uses *)

Module np.

(** [float(c)] for a Python int: the nearest binary64, [OverflowError]
    when the integer is out of range. *)
Definition float_of_int (c : Z) : result float :=
  match binary_normalize prec emax c 0 false with
  | S754_infinity _ => throw OverflowError
  | sf => ok (SF2Prim sf)
  end.

(** [a (op) b] on one-dimensional arrays, with NumPy's broadcasting: equal
    lengths pair up, a length-one array is stretched, anything else is a
    [ValueError]. *)
Fixpoint zip_with (f : float -> float -> float) (xs ys : list float)
  : list float :=
  match xs, ys with
  | x :: xs', y :: ys' => f x y :: zip_with f xs' ys'
  | _, _ => []
  end.

Definition binop (f : float -> float -> float) (xs ys : list float)
  : result (list float) :=
  if Nat.eqb (length xs) (length ys) then ok (zip_with f xs ys)
  else match xs, ys with
       | [x], _ => ok (map (fun y => f x y) ys)
       | _, [y] => ok (map (fun x => f x y) xs)
       | _, _ => throw ValueError
       end.

Definition add : list float -> list float -> result (list float) :=
  binop PrimFloat.add.
Definition subtract : list float -> list float -> result (list float) :=
  binop PrimFloat.sub.

(** [a * s] for an array [a] and a Python float [s]. *)
Definition scale (xs : list float) (s : float) : list float :=
  map (fun x => PrimFloat.mul x s) xs.

(** [np.divide(a, c)] for a float array [a] and a Python int [c]; a zero
    divisor gives infinities and NaNs, not an exception. *)
Definition divide (xs : list float) (c : Z) : result (list float) :=
  rbind (float_of_int c) (fun fc => ok (map (fun x => PrimFloat.div x fc) xs)).

(** [m.sum(axis=0)]: the rows added up, column by column, from zeros. *)
Definition sum_axis0 (m : ndarray2 float) : list float :=
  fold_left (zip_with PrimFloat.add) (rows m) (repeat 0%float (ncols m)).

(** [np.maximum] on two scalars: the first when it is the larger or a NaN. *)
Definition maximum (x y : float) : float :=
  if (PrimFloat.leb y x || PrimFloat.is_nan x)%bool then x else y.

(** [np.max(a)]: [ValueError] on an empty array. *)
Definition max (xs : list float) : result float :=
  match xs with
  | [] => throw ValueError
  | x :: xs' => ok (fold_left maximum xs' x)
  end.

(** The bound [i] of a slice of a sequence of length [len], as Python
    normalises it: negative bounds count from the end, and all are clipped. *)
Definition slice_index (len i : Z) : Z :=
  if i <? 0 then Z.max (i + len) 0 else Z.min i len.

(** [a[start:stop]]. *)
Definition slice {A : Type} (xs : list A) (start stop : Z) : list A :=
  let len := Z.of_nat (length xs) in
  let lo := slice_index len start in
  let hi := slice_index len stop in
  firstn (Z.to_nat (hi - lo)) (skipn (Z.to_nat lo) xs).

(** [w.reshape(1, n)] of a one-dimensional array. *)
Definition reshape_1 (w : list float) (n : Z) : result (ndarray2 float) :=
  if (n =? -1) || (n =? Z.of_nat (length w))
  then ok (mk_ndarray2 (length w) [w])
  else throw ValueError.

End np.

(** ** The object *)

Record PresenceAntiPeekingAlgo : Type := mk_algo {
  num_samples_per_chirp : Z;
  num_chirps_per_frame : Z;
  detect_start_sample : Z;
  detect_end_sample : Z;
  peek_start_sample : Z;
  peek_end_sample : Z;
  threshold_presence : float;
  threshold_peeking : float;
  alpha_slow : float;
  alpha_med : float;
  alpha_fast : float;
  presence_status : bool;
  peeking_status : bool;
  first_run : bool;
  range_window : ndarray2 float;
  (** unset until the first frame *)
  slow_avg : option (list float);
  fast_avg : option (list float);
  slow_peek_avg : option (list float)
}.

Definition set_presence_status (b : bool) (s : PresenceAntiPeekingAlgo) :=
  mk_algo (num_samples_per_chirp s) (num_chirps_per_frame s)
    (detect_start_sample s) (detect_end_sample s)
    (peek_start_sample s) (peek_end_sample s)
    (threshold_presence s) (threshold_peeking s)
    (alpha_slow s) (alpha_med s) (alpha_fast s)
    b (peeking_status s) (first_run s) (range_window s)
    (slow_avg s) (fast_avg s) (slow_peek_avg s).

Definition set_peeking_status (b : bool) (s : PresenceAntiPeekingAlgo) :=
  mk_algo (num_samples_per_chirp s) (num_chirps_per_frame s)
    (detect_start_sample s) (detect_end_sample s)
    (peek_start_sample s) (peek_end_sample s)
    (threshold_presence s) (threshold_peeking s)
    (alpha_slow s) (alpha_med s) (alpha_fast s)
    (presence_status s) b (first_run s) (range_window s)
    (slow_avg s) (fast_avg s) (slow_peek_avg s).

Definition set_first_run (b : bool) (s : PresenceAntiPeekingAlgo) :=
  mk_algo (num_samples_per_chirp s) (num_chirps_per_frame s)
    (detect_start_sample s) (detect_end_sample s)
    (peek_start_sample s) (peek_end_sample s)
    (threshold_presence s) (threshold_peeking s)
    (alpha_slow s) (alpha_med s) (alpha_fast s)
    (presence_status s) (peeking_status s) b (range_window s)
    (slow_avg s) (fast_avg s) (slow_peek_avg s).

Definition set_slow_avg (v : list float) (s : PresenceAntiPeekingAlgo) :=
  mk_algo (num_samples_per_chirp s) (num_chirps_per_frame s)
    (detect_start_sample s) (detect_end_sample s)
    (peek_start_sample s) (peek_end_sample s)
    (threshold_presence s) (threshold_peeking s)
    (alpha_slow s) (alpha_med s) (alpha_fast s)
    (presence_status s) (peeking_status s) (first_run s) (range_window s)
    (Some v) (fast_avg s) (slow_peek_avg s).

Definition set_fast_avg (v : list float) (s : PresenceAntiPeekingAlgo) :=
  mk_algo (num_samples_per_chirp s) (num_chirps_per_frame s)
    (detect_start_sample s) (detect_end_sample s)
    (peek_start_sample s) (peek_end_sample s)
    (threshold_presence s) (threshold_peeking s)
    (alpha_slow s) (alpha_med s) (alpha_fast s)
    (presence_status s) (peeking_status s) (first_run s) (range_window s)
    (slow_avg s) (Some v) (slow_peek_avg s).

Definition set_slow_peek_avg (v : list float) (s : PresenceAntiPeekingAlgo) :=
  mk_algo (num_samples_per_chirp s) (num_chirps_per_frame s)
    (detect_start_sample s) (detect_end_sample s)
    (peek_start_sample s) (peek_end_sample s)
    (threshold_presence s) (threshold_peeking s)
    (alpha_slow s) (alpha_med s) (alpha_fast s)
    (presence_status s) (peeking_status s) (first_run s) (range_window s)
    (slow_avg s) (fast_avg s) (Some v).

(** ** Methods: state and exceptions *)

(** A method body: from the object before to the object after, with the
    value returned or the exception raised. *)
Definition method (A : Type) : Type :=
  PresenceAntiPeekingAlgo -> PresenceAntiPeekingAlgo * result A.

Definition ret {A : Type} (a : A) : method A := fun s => (s, ok a).

Definition bind {A B : Type} (m : method A) (k : A -> method B) : method B :=
  fun s =>
    match m s with
    | (s', inl e) => (s', inl e)
    | (s', inr a) => k a s'
    end.

(** An expression that does not touch the object. *)
Definition eval {A : Type} (r : result A) : method A := fun s => (s, r).

(** [self.f] for an attribute that is always set. *)
Definition attr {A : Type} (f : PresenceAntiPeekingAlgo -> A) : method A :=
  fun s => (s, ok (f s)).

(** [self.f] for an attribute that may be unset. *)
Definition getattr {A : Type} (f : PresenceAntiPeekingAlgo -> option A)
  : method A :=
  fun s => (s, match f s with Some v => ok v | None => throw AttributeError end).

(** [self.f = v]. *)
Definition assign (upd : PresenceAntiPeekingAlgo -> PresenceAntiPeekingAlgo)
  : method unit :=
  fun s => (upd s, ok tt).

Declare Scope method_scope.
Delimit Scope method_scope with method.
Notation "x <- m ;; k" := (bind m (fun x => k))
  (at level 61, m at next level, right associativity) : method_scope.
Notation "m ;; k" := (bind m (fun _ => k))
  (at level 61, right associativity) : method_scope.

(** ** The class *)

Section Algo.

(** [scipy.signal.blackmanharris] and, in SciPy versions that moved it,
    [scipy.signal.windows.blackmanharris]: the window of [n] points, or an
    exception ([AttributeError] when the name is absent). *)
Variable signal_blackmanharris : Z -> result (list float).
Variable signal_windows_blackmanharris : Z -> result (list float).

(** [helpers.fft_spectrum(mat, range_window)]: one complex spectrum per
    row of [mat], or an exception. *)
Variable fft_spectrum :
  ndarray2 float -> ndarray2 float -> result (ndarray2 complex).

(** The magnitude of a complex number, which [abs] applies entry-wise. *)
Variable hypot : float -> float -> float.

Definition np_abs (m : ndarray2 complex) : ndarray2 float :=
  mk_ndarray2 (ncols m)
    (map (map (fun z : complex => hypot (fst z) (snd z))) (rows m)).

(** [__init__(self, num_samples_per_chirp, num_chirps_per_frame)]: the
    object constructed, or the exception that leaves the class call
    without an object. *)
Definition __init__ (num_samples_per_chirp num_chirps_per_frame : Z)
  : result PresenceAntiPeekingAlgo :=
  let window (blackmanharris : Z -> result (list float)) :=
    rbind (blackmanharris num_samples_per_chirp)
          (fun w => np.reshape_1 w num_samples_per_chirp) in
  rbind
    match window signal_blackmanharris with
    | inl AttributeError => window signal_windows_blackmanharris
    | r => r
    end
    (fun range_window =>
       ok {| num_samples_per_chirp := num_samples_per_chirp;
             num_chirps_per_frame := num_chirps_per_frame;
             detect_start_sample := num_samples_per_chirp / 8;
             detect_end_sample := num_samples_per_chirp / 2;
             peek_start_sample := num_samples_per_chirp / 2;
             peek_end_sample := num_samples_per_chirp;
             threshold_presence := 0.0007;
             threshold_peeking := 0.0006;
             alpha_slow := 0.001;
             alpha_med := 0.05;
             alpha_fast := 0.6;
             presence_status := false;
             peeking_status := false;
             first_run := true;
             range_window := range_window;
             slow_avg := None;
             fast_avg := None;
             slow_peek_avg := None |}).

(** [avg * (1 - alpha) + fft_norm * alpha]. *)
Definition ema (avg fft_norm : list float) (alpha : float)
  : result (list float) :=
  np.add (np.scale avg (1 - alpha)%float) (np.scale fft_norm alpha).

Local Open Scope method_scope.

(** Lines 65 to 69: the range FFT of the frame, its magnitudes averaged
    over the chirps. *)
Definition frame_spectrum (mat : ndarray2 float) : method (list float) :=
  window <- attr range_window ;;
  range_fft <- eval (fft_spectrum mat window) ;;
  let fft_spec_abs := np_abs range_fft in
  chirps <- attr num_chirps_per_frame ;;
  eval (np.divide (np.sum_axis0 fft_spec_abs) chirps).

(** Lines 72 to 76: the averages start from the first frame. *)
Definition initialize_averages (fft_norm : list float) : method unit :=
  first <- attr first_run ;;
  if first then
    assign (set_slow_avg fft_norm) ;;
    assign (set_fast_avg fft_norm) ;;
    assign (set_slow_peek_avg fft_norm) ;;
    assign (set_first_run false)
  else ret tt.

(** Lines 78 to 87: presence sensing. *)
Definition presence_sensing (alpha_slow alpha_med alpha_fast : float)
  (fft_norm : list float) : method unit :=
  status <- attr presence_status ;;
  let alpha_used := if negb status then alpha_med else alpha_slow in
  slow <- getattr slow_avg ;;
  slow' <- eval (ema slow fft_norm alpha_used) ;;
  assign (set_slow_avg slow') ;;
  fast <- getattr fast_avg ;;
  fast' <- eval (ema fast fft_norm alpha_fast) ;;
  assign (set_fast_avg fast') ;;
  fast <- getattr fast_avg ;;
  slow <- getattr slow_avg ;;
  data <- eval (np.subtract fast slow) ;;
  start <- attr detect_start_sample ;;
  stop <- attr detect_end_sample ;;
  top <- eval (np.max (np.slice data start stop)) ;;
  threshold <- attr threshold_presence ;;
  assign (set_presence_status (threshold <? top)%float).

(** Lines 90 to 98: peeking sensing. *)
Definition peeking_sensing (alpha_slow alpha_med : float)
  (fft_norm : list float) : method unit :=
  status <- attr peeking_status ;;
  let alpha_used := if negb status then alpha_med else alpha_slow in
  slow_peek <- getattr slow_peek_avg ;;
  slow_peek' <- eval (ema slow_peek fft_norm alpha_used) ;;
  assign (set_slow_peek_avg slow_peek') ;;
  fast <- getattr fast_avg ;;
  slow_peek <- getattr slow_peek_avg ;;
  data_peek <- eval (np.subtract fast slow_peek) ;;
  start <- attr peek_start_sample ;;
  stop <- attr peek_end_sample ;;
  top <- eval (np.max (np.slice data_peek start stop)) ;;
  threshold <- attr threshold_peeking ;;
  assign (set_peeking_status (threshold <? top)%float).

(** [presence(self, mat)]: the named tuple [(presence, peeking)]. *)
Definition presence (mat : ndarray2 float) : method (bool * bool) :=
  alpha_slow <- attr alpha_slow ;;
  alpha_med <- attr alpha_med ;;
  alpha_fast <- attr alpha_fast ;;
  fft_norm <- frame_spectrum mat ;;
  initialize_averages fft_norm ;;
  presence_sensing alpha_slow alpha_med alpha_fast fft_norm ;;
  peeking_sensing alpha_slow alpha_med fft_norm ;;
  presence_now <- attr presence_status ;;
  peeking_now <- attr peeking_status ;;
  ret (presence_now, peeking_now).

(** The objects a program can hold: a constructed one, and one on which
    [presence] has been called, whether the call returned or raised. *)
Inductive reachable : PresenceAntiPeekingAlgo -> Prop :=
| reachable_init (n c : Z) (s : PresenceAntiPeekingAlgo) :
    __init__ n c = inr s -> reachable s
| reachable_presence (s : PresenceAntiPeekingAlgo) (mat : ndarray2 float) :
    reachable s -> reachable (fst (presence mat s)).

End Algo.

(** ** The script *)

Section Script.

(** The external helpers, as in the section [Algo]. *)
Variable signal_blackmanharris : Z -> result (list float).
Variable signal_windows_blackmanharris : Z -> result (list float).
Variable fft_spectrum :
  ndarray2 float -> ndarray2 float -> result (ndarray2 complex).
Variable hypot : float -> float -> float.

(** The exception of an index out of range. *)
Import String.StringSyntax.
Local Open Scope string_scope.
Definition IndexError : exn := OtherError "IndexError".
Local Close Scope string_scope.

(** What one call of [device.get_next_frame()] returns: a list of frames,
    each a three-dimensional array, that is one matrix per receive antenna. *)
Definition frame_contents : Type := list (list (ndarray2 float)).

(** Lines 147 and 150, [frame_contents[0]] and then [frame[0, :, :]]: the
    matrix of the first antenna of the first frame, [IndexError] when there
    is no frame or no antenna. *)
Definition first_antenna (contents : frame_contents)
  : result (ndarray2 float) :=
  match contents with
  | [] => throw IndexError
  | frame :: _ =>
      match frame with
      | [] => throw IndexError
      | mat :: _ => ok mat
      end
  end.

(** Lines 144 to 154, the loop over the frames.  [device] lists what the
    successive calls of [device.get_next_frame()] return, one entry per
    iteration.  The result is the object after the loop, the pairs printed
    (one [Presence:] line and one [Peeking:] line each), and how the loop
    ended: an exception leaves it at once, with the pairs printed so far. *)
Fixpoint main_loop (device : list (result frame_contents))
  (algo : PresenceAntiPeekingAlgo)
  : PresenceAntiPeekingAlgo * list (bool * bool) * result unit :=
  match device with
  | [] => (algo, [], ok tt)
  | reading :: rest =>
      match rbind reading first_antenna with
      | inl e => (algo, [], inl e)
      | inr mat =>
          match presence fft_spectrum hypot mat algo with
          | (algo', inl e) => (algo', [], inl e)
          | (algo', inr status) =>
              let '(algo'', printed, r) := main_loop rest algo' in
              (algo'', status :: printed, r)
          end
      end
  end.

(** Lines 141 to 154: the object for 256 samples per chirp and 32 chirps
    per frame of the configuration of line 114, then the loop.  The
    argument parser and the set-up of the device are outside the model. *)
Definition main (device : list (result frame_contents))
  : list (bool * bool) * result unit :=
  match __init__ signal_blackmanharris signal_windows_blackmanharris 256 32 with
  | inl e => ([], inl e)
  | inr algo => let '(_, printed, r) := main_loop device algo in (printed, r)
  end.

(** A reading that the loop can process: its first antenna is there, and
    the FFT helper, given the window [w], returns for it a spectrum of [k]
    columns with [k] entries in every row. *)
Definition good_reading (w : ndarray2 float) (k : nat)
  (reading : result frame_contents) : Prop :=
  exists contents mat range_fft,
    reading = inr contents /\
    first_antenna contents = inr mat /\
    fft_spectrum mat w = inr range_fft /\
    rectangular range_fft /\ ncols range_fft = k.

End Script.

(** ** The thermal sensor loop (code.py) *)

Section Thermal.

Import String.StringSyntax.
Local Open Scope string_scope.

(** [f"{x:.2f}"]: the float formatting of the interpreter, taken as given. *)
Variable format_2f : float -> String.string.

Definition TD_IP : String.string := "192.168.50.224".
Definition TD_PORT : Z := 8000.
Definition PRESENCE_THRESHOLD : float := 28.0.

(** What the loop does to the outside, in order. *)
Inductive output : Type :=
| udp_sendto (payload host : String.string) (port : Z)
| print_sent (message : String.string)
| print_sensor_error (e : exn)
| time_sleep (seconds : Z).

(** What the outside answers during one iteration: [mlx.getFrame(frame)]
    fills the buffer it is given or raises, and [udp.sendto] sends or
    raises.  The exceptions are subclasses of [Exception]. *)
Record surroundings : Type := mk_surroundings {
  getFrame : list float -> result (list float);
  sendto : String.string -> String.string -> Z -> result unit
}.

(** The builtin [max] of a list: the first entry, replaced by each later
    entry that compares greater; [ValueError] on an empty list. *)
Definition py_max (xs : list float) : result float :=
  match xs with
  | [] => throw ValueError
  | x :: rest =>
      ok (fold_left (fun best item => if (best <? item)%float then item else best)
            rest x)
  end.

(** Line 43, [f"presence:{presence},temp:{max_temp:.2f}"]. *)
Definition message (presence : bool) (max_temp : float) : String.string :=
  String.append "presence:"
    (String.append (if presence then "1" else "0")
       (String.append ",temp:" (format_2f max_temp))).

(** Lines 34 to 51, one turn of the loop.  The average of line 39 is
    computed and never used, and raises nothing once [max] has returned; it
    is left out. *)
Definition iteration (env : surroundings) : list output :=
  let frame := repeat 0%float 768 in
  let attempt :=
    rbind (getFrame env frame) (fun frame =>
    rbind (py_max frame) (fun max_temp =>
    let presence := (PRESENCE_THRESHOLD <? max_temp)%float in
    let message := message presence max_temp in
    rbind (sendto env message TD_IP TD_PORT) (fun _ => ok message))) in
  match attempt with
  | inr message =>
      [udp_sendto message TD_IP TD_PORT; print_sent message; time_sleep 1]
  | inl e => [print_sensor_error e; time_sleep 1]
  end.

(** The first turns of [while True], one per entry of [envs]. *)
Definition thermal_loop (envs : list surroundings) : list output :=
  flat_map iteration envs.

Local Close Scope string_scope.

End Thermal.

(** ** Stand-ins for the external helpers

    Executable stand-ins, for running the class on concrete frames: a
    rectangular window, and a transform that returns the windowed samples of
    each row as its spectrum.  Like the real helpers they accept any number
    of rows, and on a frame of zeros they return what the real helpers
    return, a spectrum of zeros with one column per sample. *)
Module Stub.

Definition blackmanharris (n : Z) : result (list float) :=
  if n <? 0 then throw ValueError else ok (repeat 1%float (Z.to_nat n)).

Definition fft_spectrum (mat window : ndarray2 float)
  : result (ndarray2 complex) :=
  match rows window with
  | [w] =>
      if Nat.eqb (ncols mat) (ncols window)
      then ok (mk_ndarray2 (ncols mat)
                 (map (fun r => map (fun x => (x, 0%float))
                                    (np.zip_with PrimFloat.mul r w))
                      (rows mat)))
      else throw ValueError
  | _ => throw ValueError
  end.

Definition hypot (re im : float) : float :=
  PrimFloat.sqrt (re * re + im * im)%float.

Definition new (n c : Z) : result PresenceAntiPeekingAlgo :=
  __init__ blackmanharris blackmanharris n c.

Definition presence (mat : ndarray2 float) : method (bool * bool) :=
  presence fft_spectrum hypot mat.

(** The object constructed, when construction returns. *)
Definition built (n c : Z)
  : match new n c with inr _ => PresenceAntiPeekingAlgo | inl _ => unit end :=
  match new n c as r
        return match r with inr _ => PresenceAntiPeekingAlgo | inl _ => unit end
  with
  | inr s => s
  | inl _ => tt
  end.

End Stub.

(** A frame of [r] chirps of [c] samples, every sample [v]. *)
Definition constant_frame (r c : nat) (v : float) : ndarray2 float :=
  mk_ndarray2 c (repeat (repeat v c) r).

(** Objects and frames to run the class on. *)
Module Example.

(** 8 samples per chirp, 2 chirps per frame: before any frame, after a
    first frame of ones, and after a second frame of threes. *)
Definition algo_8_2 : PresenceAntiPeekingAlgo :=
  Eval vm_compute in Stub.built 8 2.

Definition ones : ndarray2 float := constant_frame 2 8 1.
Definition threes : ndarray2 float := constant_frame 2 8 3.

Definition algo_8_2_first : PresenceAntiPeekingAlgo :=
  Eval vm_compute in fst (Stub.presence ones algo_8_2).

Definition algo_8_2_second : PresenceAntiPeekingAlgo :=
  Eval vm_compute in fst (Stub.presence threes algo_8_2_first).

(** 1 sample per chirp, 2 chirps per frame. *)
Definition algo_1_2 : PresenceAntiPeekingAlgo :=
  Eval vm_compute in Stub.built 1 2.

(** 256 samples per chirp, 32 chirps per frame: the configuration of the
    script. *)
Definition algo_256_32 : PresenceAntiPeekingAlgo :=
  Eval vm_compute in Stub.built 256 32.

(** A frame of NaNs, and the object after it as a first frame. *)
Definition nans : ndarray2 float := constant_frame 2 8 nan.

Definition algo_8_2_nan : PresenceAntiPeekingAlgo :=
  Eval vm_compute in fst (Stub.presence nans algo_8_2).

(** The object with one sample per chirp after the call that raised. *)
Definition algo_1_2_raised : PresenceAntiPeekingAlgo :=
  Eval vm_compute in fst (Stub.presence (constant_frame 2 1 0) algo_1_2).

(** What a device returns: one frame of one antenna. *)
Definition reading (mat : ndarray2 float) : result frame_contents :=
  inr [[mat]].

(** A sensor that reads three pixels, a socket that sends, and a
    formatting that prints nothing. *)
Definition warm_room : surroundings :=
  mk_surroundings (fun _ => inr [20; 30.5; 25]%float) (fun _ _ _ => inr tt).

Definition nan_room : surroundings :=
  mk_surroundings (fun _ => inr [nan; 30.5; 25]%float) (fun _ _ _ => inr tt).

Definition no_digits (x : float) : String.string := String.EmptyString.

(** 8 samples per chirp and no chirp per frame. *)
Definition algo_8_0 : PresenceAntiPeekingAlgo :=
  Eval vm_compute in Stub.built 8 0.

(** A frame of ones but for its first sample, and the object after it as a
    first frame. *)
Definition ones_but_first : ndarray2 float :=
  mk_ndarray2 8 (repeat [5; 1; 1; 1; 1; 1; 1; 1]%float 2).

Definition algo_8_2_other : PresenceAntiPeekingAlgo :=
  Eval vm_compute in fst (Stub.presence ones_but_first algo_8_2).

End Example.

(** ** Vocabulary of the properties *)

(** The length of [a (op) b] under broadcasting, when there is one. *)
Definition broadcast_length (a b : nat) : option nat :=
  if Nat.eqb a b then Some a
  else if Nat.eqb a 1 then Some b
  else if Nat.eqb b 1 then Some a
  else None.

(** The attributes that [__init__] derives from its arguments or sets to
    literals, with the values it gives them. *)
Definition configured (s : PresenceAntiPeekingAlgo) : Prop :=
  detect_start_sample s = num_samples_per_chirp s / 8 /\
  detect_end_sample s = num_samples_per_chirp s / 2 /\
  peek_start_sample s = num_samples_per_chirp s / 2 /\
  peek_end_sample s = num_samples_per_chirp s /\
  threshold_presence s = 0.0007%float /\
  threshold_peeking s = 0.0006%float /\
  alpha_slow s = 0.001%float /\
  alpha_med s = 0.05%float /\
  alpha_fast s = 0.6%float.

(** Two objects with the same configuration: all attributes but the three
    averages, the two statuses and [first_run]. *)
Definition same_config (s s' : PresenceAntiPeekingAlgo) : Prop :=
  num_samples_per_chirp s' = num_samples_per_chirp s /\
  num_chirps_per_frame s' = num_chirps_per_frame s /\
  detect_start_sample s' = detect_start_sample s /\
  detect_end_sample s' = detect_end_sample s /\
  peek_start_sample s' = peek_start_sample s /\
  peek_end_sample s' = peek_end_sample s /\
  threshold_presence s' = threshold_presence s /\
  threshold_peeking s' = threshold_peeking s /\
  alpha_slow s' = alpha_slow s /\
  alpha_med s' = alpha_med s /\
  alpha_fast s' = alpha_fast s /\
  range_window s' = range_window s.

(** The objects that the sensing steps can leave behind when started on
    [s1]: the assignments of lines 83, 84, 87 and 95 are made in this
    order, and an exception stops the sequence where it is raised. *)
Inductive written_prefix (s1 : PresenceAntiPeekingAlgo)
  : PresenceAntiPeekingAlgo -> Prop :=
| wrote_nothing : written_prefix s1 s1
| wrote_slow_avg (slow' : list float) :
    written_prefix s1 (set_slow_avg slow' s1)
| wrote_fast_avg (slow' fast' : list float) :
    written_prefix s1 (set_fast_avg fast' (set_slow_avg slow' s1))
| wrote_presence_status (slow' fast' : list float) (b : bool) :
    written_prefix s1
      (set_presence_status b (set_fast_avg fast' (set_slow_avg slow' s1)))
| wrote_slow_peek_avg (slow' fast' : list float) (b : bool)
    (slow_peek' : list float) :
    written_prefix s1
      (set_slow_peek_avg slow_peek'
         (set_presence_status b (set_fast_avg fast' (set_slow_avg slow' s1)))).

(** What the peeking step can see of an object: everything but [slow_avg]
    and [presence_status], which are overwritten here. *)
Definition peek_view (s : PresenceAntiPeekingAlgo) : PresenceAntiPeekingAlgo :=
  set_presence_status false (set_slow_avg [] s).

(** A spectrum with as many entries in each row as it has columns, all of
    magnitude zero: the spectrum of a frame of zero samples. *)
Definition silent (hypot : float -> float -> float)
  (range_fft : ndarray2 complex) : Prop :=
  Forall (fun row =>
            length row = ncols range_fft /\
            Forall (fun z : complex => hypot (fst z) (snd z) = 0%float) row)
         (rows range_fft).

(** The quotients of zero: what [0 / c] can be. *)
Definition zero_or_nan (z : float) : Prop :=
  z = 0%float \/ z = (-0)%float \/ z = nan.

(** Two outcomes that agree on raising, and on the exception raised. *)
Definition same_outcome {A B : Type} (r : result A) (r' : result B) : Prop :=
  match r, r' with
  | inr _, inr _ => True
  | inl e, inl e' => e = e'
  | _, _ => False
  end.

(** The differential of a bin on a first frame whose normalised spectrum is
    [z] there: the fast average minus a slow average of coefficient
    [alpha], both started from [z] and updated with [z]. *)
Definition first_differential (z alpha : float) : float :=
  ((z * (1 - 0.6) + z * 0.6) - (z * (1 - alpha) + z * alpha))%float.

(** The order on the floats that are not NaN, read on a key: the class
    (infinities, finite negatives, zeros, finite positives), then the
    exponent and the mantissa with the sign of the number. *)
Definition SFkey (x : spec_float) : Z * Z * Z :=
  match x with
  | S754_zero _ => (0, 0, 0)
  | S754_infinity s => (if s then -2 else 2, 0, 0)
  | S754_nan => (0, 0, 0)
  | S754_finite s m e => if s then (-1, - e, - Z.pos m) else (1, e, Z.pos m)
  end.

Definition key_compare (a b : Z * Z * Z) : comparison :=
  let '(a1, a2, a3) := a in
  let '(b1, b2, b3) := b in
  match a1 ?= b1 with
  | Eq => match a2 ?= b2 with Eq => a3 ?= b3 | c => c end
  | c => c
  end.

Definition key_lt (a b : Z * Z * Z) : Prop :=
  let '(a1, a2, a3) := a in
  let '(b1, b2, b3) := b in
  a1 < b1 \/ (a1 = b1 /\ (a2 < b2 \/ (a2 = b2 /\ a3 < b3))).

(** The order of the floats, for those that are not NaN. *)
Definition ordered (x : float) : Prop := Prim2SF x <> S754_nan.

(** The averages that are set have [k] entries. *)
Definition sized (k : nat) (s : PresenceAntiPeekingAlgo) : Prop :=
  (forall v, slow_avg s = Some v -> length v = k) /\
  (forall v, fast_avg s = Some v -> length v = k) /\
  (forall v, slow_peek_avg s = Some v -> length v = k).

(** The three averages are set or unset together with [first_run]. *)
Definition averages_follow_first_run (s : PresenceAntiPeekingAlgo) : Prop :=
  if first_run s
  then slow_avg s = None /\ fast_avg s = None /\ slow_peek_avg s = None
  else slow_avg s <> None /\ fast_avg s <> None /\ slow_peek_avg s <> None.

(** The turns of the thermal loop, counted on what they do. *)
Definition is_sleep (o : output) : bool :=
  match o with time_sleep _ => true | _ => false end.

Definition is_datagram (o : output) : bool :=
  match o with udp_sendto _ _ _ => true | _ => false end.

(** An infinity or a NaN: what a division by zero gives. *)
Definition unbounded (x : float) : Prop :=
  x = infinity \/ x = neg_infinity \/ x = nan.

(** After a first frame, the three averages are one array of infinities and
    NaNs. *)
Definition averages_unbounded (s : PresenceAntiPeekingAlgo) : Prop :=
  first_run s = false ->
  exists avg,
    slow_avg s = Some avg /\ fast_avg s = Some avg /\
    slow_peek_avg s = Some avg /\ Forall unbounded avg.

(** Two arrays of one length that agree in every bin from [j] on. *)
Definition agree_from (j : nat) (xs ys : list float) : Prop :=
  length xs = length ys /\
  forall i, (j <= i)%nat -> nth_error xs i = nth_error ys i.

Definition averages_agree_from (j : nat) (a b : option (list float)) : Prop :=
  match a, b with
  | Some xs, Some ys => agree_from j xs ys
  | None, None => True
  | _, _ => False
  end.

(** Two objects that differ at most in the bins below [j] of their
    averages. *)
Definition same_from (j : nat) (s t : PresenceAntiPeekingAlgo) : Prop :=
  same_config s t /\
  first_run t = first_run s /\
  presence_status t = presence_status s /\
  peeking_status t = peeking_status s /\
  averages_agree_from j (slow_avg s) (slow_avg t) /\
  averages_agree_from j (fast_avg s) (fast_avg t) /\
  averages_agree_from j (slow_peek_avg s) (slow_peek_avg t).

(** * Properties *)

(** ** Floats *)

Lemma SFcompare_refl (x : spec_float) :
  x <> S754_nan -> SFcompare x x = Some Eq.
Proof.
  destruct x as [s|[|]| |[|] m e]; intros N; cbn; try reflexivity;
    try (now elim N);
    rewrite Z.compare_refl, Pos.compare_cont_refl; reflexivity.
Qed.

(** A float that differs from itself is the NaN. *)
Lemma is_nan_true (x : float) : is_nan x = true -> x = nan.
Proof.
  unfold is_nan. rewrite eqb_spec. unfold SFeqb. intros H.
  rewrite <- (SF2Prim_Prim2SF x).
  destruct (Prim2SF x) eqn:E; try reflexivity;
    rewrite SFcompare_refl in H by discriminate; discriminate H.
Qed.

Lemma is_nan_false (x : float) : is_nan x = false -> Prim2SF x <> S754_nan.
Proof.
  unfold is_nan. rewrite eqb_spec. unfold SFeqb. intros H E.
  rewrite E in H. discriminate H.
Qed.

Lemma Prim2SF_nan : Prim2SF nan = S754_nan.
Proof. reflexivity. Qed.

Lemma of_spec_nan (x : float) : Prim2SF x = S754_nan -> x = nan.
Proof. intros E. rewrite <- (SF2Prim_Prim2SF x), E. reflexivity. Qed.

Lemma mul_nan_l (y : float) : (nan * y)%float = nan.
Proof. apply of_spec_nan. rewrite mul_spec. reflexivity. Qed.

Lemma mul_nan_r (x : float) : (x * nan)%float = nan.
Proof.
  apply of_spec_nan. rewrite mul_spec, Prim2SF_nan.
  destruct (Prim2SF x); reflexivity.
Qed.

Lemma add_nan_l (y : float) : (nan + y)%float = nan.
Proof. apply of_spec_nan. rewrite add_spec. reflexivity. Qed.

Lemma add_nan_r (x : float) : (x + nan)%float = nan.
Proof.
  apply of_spec_nan. rewrite add_spec, Prim2SF_nan.
  destruct (Prim2SF x) as [[|]|[|]| |]; reflexivity.
Qed.

Lemma sub_nan_l (y : float) : (nan - y)%float = nan.
Proof. apply of_spec_nan. rewrite sub_spec. reflexivity. Qed.

Lemma sub_nan_r (x : float) : (x - nan)%float = nan.
Proof.
  apply of_spec_nan. rewrite sub_spec, Prim2SF_nan.
  destruct (Prim2SF x) as [[|]|[|]| |]; reflexivity.
Qed.

Lemma ltb_nan_r (x : float) : (x <? nan)%float = false.
Proof.
  rewrite ltb_spec, Prim2SF_nan. unfold SFltb.
  destruct (Prim2SF x); reflexivity.
Qed.

Lemma leb_nan_l (x : float) : (nan <=? x)%float = false.
Proof. rewrite leb_spec. reflexivity. Qed.

Lemma SFcompare_key (x y : spec_float) :
  x <> S754_nan -> y <> S754_nan ->
  SFcompare x y = Some (key_compare (SFkey x) (SFkey y)).
Proof.
  destruct x as [sx|[|]| |[|] mx ex], y as [sy|[|]| |[|] my ey];
    intros Nx Ny; try (now elim Nx); try (now elim Ny); cbn;
    try reflexivity.
  - change (PosDef.Pos.compare_cont Eq mx my) with (mx ?= my)%positive.
    rewrite Z.compare_opp.
    destruct (Z.compare_spec ex ey), (Z.compare_spec ey ex);
      try lia; reflexivity.
Qed.

Lemma key_compare_spec (a b : Z * Z * Z) :
  match key_compare a b with
  | Lt => key_lt a b
  | Eq => a = b
  | Gt => key_lt b a
  end.
Proof.
  destruct a as [[a1 a2] a3], b as [[b1 b2] b3]. unfold key_compare, key_lt.
  destruct (Z.compare_spec a1 b1); [|lia|lia].
  destruct (Z.compare_spec a2 b2); [|lia|lia].
  destruct (Z.compare_spec a3 b3); [|lia|lia].
  congruence.
Qed.

Lemma key_lt_irrefl (a b : Z * Z * Z) : key_lt a b -> key_lt b a -> False.
Proof.
  destruct a as [[a1 a2] a3], b as [[b1 b2] b3]. unfold key_lt. lia.
Qed.

Lemma key_lt_trans (a b c : Z * Z * Z) : key_lt a b -> key_lt b c -> key_lt a c.
Proof.
  destruct a as [[a1 a2] a3], b as [[b1 b2] b3], c as [[c1 c2] c3].
  unfold key_lt. lia.
Qed.

Lemma key_compare_Lt (a b : Z * Z * Z) : key_lt a b -> key_compare a b = Lt.
Proof.
  intros L. pose proof (key_compare_spec a b) as S.
  destruct (key_compare a b); [subst b| reflexivity |];
    exfalso; eapply key_lt_irrefl; eauto.
Qed.

Lemma ltb_key (x y : float) :
  ordered x -> ordered y ->
  ((x <? y)%float = true <-> key_lt (SFkey (Prim2SF x)) (SFkey (Prim2SF y))).
Proof.
  intros Ox Oy. rewrite ltb_spec. unfold SFltb.
  rewrite SFcompare_key by assumption.
  pose proof (key_compare_spec (SFkey (Prim2SF x)) (SFkey (Prim2SF y))) as S.
  split.
  - destruct (key_compare _ _); try discriminate. auto.
  - intros L. now rewrite (key_compare_Lt _ _ L).
Qed.

Lemma leb_key (x y : float) :
  ordered x -> ordered y ->
  ((x <=? y)%float = false <-> key_lt (SFkey (Prim2SF y)) (SFkey (Prim2SF x))).
Proof.
  intros Ox Oy. rewrite leb_spec. unfold SFleb.
  rewrite SFcompare_key by assumption.
  pose proof (key_compare_spec (SFkey (Prim2SF x)) (SFkey (Prim2SF y))) as S.
  split.
  - destruct (key_compare _ _); try discriminate. auto.
  - intros L. destruct (key_compare _ _) eqn:E; try reflexivity; exfalso.
    + rewrite S in L. eapply key_lt_irrefl; eauto.
    + eapply key_lt_irrefl; eauto.
Qed.

Lemma ltb_leb_trans (x y z : float) :
  ordered x -> ordered y -> ordered z ->
  (x <? y)%float = true -> (y <=? z)%float = true -> (x <? z)%float = true.
Proof.
  intros Ox Oy Oz L1 L2.
  apply (ltb_key x y Ox Oy) in L1. apply (ltb_key x z Ox Oz).
  rewrite leb_spec in L2. unfold SFleb in L2.
  rewrite SFcompare_key in L2 by assumption.
  pose proof (key_compare_spec (SFkey (Prim2SF y)) (SFkey (Prim2SF z))) as S.
  destruct (key_compare _ _); try discriminate.
  - now rewrite <- S.
  - eapply key_lt_trans; eauto.
Qed.

Lemma ltb_trans (x y z : float) :
  ordered x -> ordered y -> ordered z ->
  (x <? y)%float = true -> (y <? z)%float = true -> (x <? z)%float = true.
Proof.
  intros Ox Oy Oz L1 L2.
  apply (ltb_key x y Ox Oy) in L1. apply (ltb_key y z Oy Oz) in L2.
  apply (ltb_key x z Ox Oz). eapply key_lt_trans; eauto.
Qed.

(** ** Arrays *)

Lemma zip_with_length (f : float -> float -> float) (xs ys : list float) :
  length xs = length ys -> length (np.zip_with f xs ys) = length xs.
Proof.
  revert ys; induction xs as [|x xs IH]; intros [|y ys] H; simpl in *;
    try discriminate; auto.
Qed.

(** Whether [a (op) b] raises depends on the two lengths alone, and so does
    the length of its value. *)
Lemma binop_shape (f : float -> float -> float) (xs ys : list float) :
  match broadcast_length (length xs) (length ys) with
  | Some n => exists zs, np.binop f xs ys = inr zs /\ length zs = n
  | None => np.binop f xs ys = inl ValueError
  end.
Proof.
  unfold broadcast_length, np.binop.
  destruct (Nat.eqb (length xs) (length ys)) eqn:E.
  - apply Nat.eqb_eq in E. eexists; split; [reflexivity|].
    now apply zip_with_length.
  - destruct xs as [|x [|x' xs]]; destruct ys as [|y [|y' ys]];
      cbn in E |- *; try discriminate;
      try reflexivity;
      try (eexists; split; [reflexivity|]; cbn; now rewrite ?length_map).
Qed.

Lemma scale_length (xs : list float) (a : float) :
  length (np.scale xs a) = length xs.
Proof. apply length_map. Qed.

(** A slice has as many entries whatever the entries are. *)
Lemma slice_length {A : Type} (xs ys : list A) (lo hi : Z) :
  length xs = length ys ->
  length (np.slice xs lo hi) = length (np.slice ys lo hi).
Proof.
  intros H. unfold np.slice. rewrite H.
  rewrite !length_firstn, !length_skipn, H. reflexivity.
Qed.

Lemma max_shape (xs ys : list float) :
  length xs = length ys ->
  match np.max xs, np.max ys with
  | inr _, inr _ => True
  | inl e, inl e' => e = e'
  | _, _ => False
  end.
Proof.
  destruct xs, ys; simpl; intros H; try discriminate; auto.
Qed.

(** ** The maximum of an array *)

Lemma ordered_iff (x : float) : ordered x <-> x <> nan.
Proof.
  unfold ordered. split; intros H E; apply H.
  - now rewrite E.
  - now apply of_spec_nan.
Qed.

Lemma ordered_is_nan (x : float) : ordered x -> is_nan x = false.
Proof.
  intros O. destruct (is_nan x) eqn:E; [|reflexivity].
  apply is_nan_true in E. now apply ordered_iff in O.
Qed.

Lemma maximum_nan_l (y : float) : np.maximum nan y = nan.
Proof.
  unfold np.maximum. change (is_nan nan) with true.
  now rewrite orb_true_r.
Qed.

Lemma maximum_nan_r (x : float) : np.maximum x nan = nan.
Proof.
  unfold np.maximum. rewrite leb_nan_l. cbn [orb].
  destruct (is_nan x) eqn:E; [|reflexivity]. now apply is_nan_true.
Qed.

Lemma fold_maximum_nan (xs : list float) :
  fold_left np.maximum xs nan = nan.
Proof.
  induction xs as [|x xs IH]; cbn [fold_left]; [reflexivity|].
  now rewrite maximum_nan_l.
Qed.

Lemma fold_maximum_In_nan (xs : list float) (x : float) :
  In nan xs -> fold_left np.maximum xs x = nan.
Proof.
  revert x; induction xs as [|y xs IH]; intros x I; [contradiction|].
  cbn [fold_left]. destruct I as [E|I].
  - subst y. rewrite maximum_nan_r. apply fold_maximum_nan.
  - now apply IH.
Qed.

(** A NaN anywhere in an array is its maximum. *)
Lemma max_nan (xs : list float) : In nan xs -> np.max xs = inr nan.
Proof.
  destruct xs as [|x xs]; intros I; [contradiction|].
  unfold np.max, ok. f_equal. destruct I as [->|I].
  - apply fold_maximum_nan.
  - now apply fold_maximum_In_nan.
Qed.

Lemma maximum_exceeds (t x y : float) :
  ordered t -> ordered x -> ordered y ->
  ordered (np.maximum x y) /\
  (t <? np.maximum x y)%float = ((t <? x)%float || (t <? y)%float)%bool.
Proof.
  intros Ot Ox Oy. unfold np.maximum.
  rewrite (ordered_is_nan x Ox), orb_false_r.
  destruct (y <=? x)%float eqn:L; split; try assumption.
  - destruct (t <? y)%float eqn:T; [|now rewrite orb_false_r].
    rewrite (ltb_leb_trans t y x Ot Oy Ox T L). reflexivity.
  - destruct (t <? x)%float eqn:T; [|reflexivity].
    apply (leb_key y x Oy Ox) in L. apply (ltb_key x y Ox Oy) in L.
    apply (ltb_trans t x y Ot Ox Oy T L).
Qed.

Lemma fold_maximum_exceeds (t : float) (xs : list float) (x : float) :
  ordered t -> ordered x -> Forall ordered xs ->
  ordered (fold_left np.maximum xs x) /\
  (t <? fold_left np.maximum xs x)%float
  = ((t <? x)%float || existsb (fun y => t <? y)%float xs)%bool.
Proof.
  intros Ot. revert x.
  induction xs as [|y xs IH]; intros x Ox F; cbn [fold_left existsb].
  - split; [assumption|now rewrite orb_false_r].
  - inversion_clear F as [|? ? Oy F'].
    destruct (maximum_exceeds t x y Ot Ox Oy) as [Om Em].
    destruct (IH (np.maximum x y) Om F') as [Of Ef].
    split; [assumption|]. now rewrite Ef, Em, orb_assoc.
Qed.

(** The maximum of an array without NaN is above a threshold exactly when
    some entry is. *)
Lemma max_exceeds (t : float) (xs : list float) (m : float) :
  ordered t -> Forall ordered xs -> np.max xs = inr m ->
  ordered m /\ (t <? m)%float = existsb (fun y => t <? y)%float xs.
Proof.
  intros Ot F H. destruct xs as [|x xs]; [discriminate H|].
  injection H as <-. inversion_clear F as [|? ? Ox F'].
  apply fold_maximum_exceeds; assumption.
Qed.

(** ** Running the method bodies *)

Ltac read_attrs :=
  cbn [fst snd slow_avg fast_avg slow_peek_avg presence_status peeking_status
       first_run set_slow_avg set_fast_avg set_slow_peek_avg set_first_run
       set_presence_status set_peeking_status detect_start_sample
       detect_end_sample peek_start_sample peek_end_sample threshold_presence
       threshold_peeking num_samples_per_chirp num_chirps_per_frame
       alpha_slow alpha_med alpha_fast range_window] in *.

Ltac run_method :=
  unfold presence_sensing, peeking_sensing, initialize_averages,
    bind, attr, getattr, eval, assign, ret, ok, throw in *;
  read_attrs.

Ltac open_attr :=
  repeat match goal with
    | E : match ?o with Some _ => _ | None => _ end = inr _ |- _ =>
        let Eo := fresh "A" in
        destruct o eqn:Eo; [injection E as -> | discriminate E]
    end.

Ltac split_match H :=
  match type of H with
  | context [match ?x with _ => _ end] =>
      let E := fresh "E" in
      destruct x eqn:E; run_method; try discriminate H
  end.

(** The object after lines 72 to 76. *)
Lemma initialize_averages_run (fft_norm : list float)
  (s : PresenceAntiPeekingAlgo) :
  initialize_averages fft_norm s =
  (if first_run s
   then set_first_run false
          (set_slow_peek_avg fft_norm
             (set_fast_avg fft_norm (set_slow_avg fft_norm s)))
   else s, inr tt).
Proof. run_method. destruct (first_run s); reflexivity. Qed.

(** A presence step that returns has found both averages, and has written
    [slow_avg], [fast_avg] and [presence_status], in this order. *)
Lemma presence_sensing_returns (a_slow a_med a_fast : float)
  (fft_norm : list float) (s s' : PresenceAntiPeekingAlgo) (u : unit) :
  presence_sensing a_slow a_med a_fast fft_norm s = (s', inr u) ->
  exists slow fast slow' fast' data top,
    slow_avg s = Some slow /\ fast_avg s = Some fast /\
    ema slow fft_norm (if negb (presence_status s) then a_med else a_slow)
      = inr slow' /\
    ema fast fft_norm a_fast = inr fast' /\
    np.subtract fast' slow' = inr data /\
    np.max (np.slice data (detect_start_sample s) (detect_end_sample s))
      = inr top /\
    s' = set_presence_status (threshold_presence s <? top)%float
           (set_fast_avg fast' (set_slow_avg slow' s)).
Proof.
  intros H. run_method.
  repeat split_match H.
  injection H as <-. open_attr.
  repeat eexists; eauto.
Qed.

(** A presence step that raises stops after a prefix of those writes, and
    before [presence_status] is written. *)
Lemma presence_sensing_raises (a_slow a_med a_fast : float)
  (fft_norm : list float) (s s' : PresenceAntiPeekingAlgo) (e : exn) :
  presence_sensing a_slow a_med a_fast fft_norm s = (s', inl e) ->
  s' = s \/
  (exists slow', s' = set_slow_avg slow' s) \/
  (exists slow' fast', s' = set_fast_avg fast' (set_slow_avg slow' s)).
Proof.
  intros H. run_method.
  repeat split_match H; injection H as <- <-; eauto.
Qed.

Lemma peeking_sensing_returns (a_slow a_med : float)
  (fft_norm : list float) (s s' : PresenceAntiPeekingAlgo) (u : unit) :
  peeking_sensing a_slow a_med fft_norm s = (s', inr u) ->
  exists slow_peek fast slow_peek' data_peek top,
    slow_peek_avg s = Some slow_peek /\ fast_avg s = Some fast /\
    ema slow_peek fft_norm (if negb (peeking_status s) then a_med else a_slow)
      = inr slow_peek' /\
    np.subtract fast slow_peek' = inr data_peek /\
    np.max (np.slice data_peek (peek_start_sample s) (peek_end_sample s))
      = inr top /\
    s' = set_peeking_status (threshold_peeking s <? top)%float
           (set_slow_peek_avg slow_peek' s).
Proof.
  intros H. run_method.
  repeat split_match H.
  injection H as <-. open_attr.
  repeat eexists; eauto.
Qed.

Lemma peeking_sensing_raises (a_slow a_med : float)
  (fft_norm : list float) (s s' : PresenceAntiPeekingAlgo) (e : exn) :
  peeking_sensing a_slow a_med fft_norm s = (s', inl e) ->
  s' = s \/ (exists slow_peek', s' = set_slow_peek_avg slow_peek' s).
Proof.
  intros H. run_method.
  repeat split_match H; injection H as <- <-; eauto.
Qed.

(** ** The update as a whole *)

Section Facts.

Variable signal_blackmanharris : Z -> result (list float).
Variable signal_windows_blackmanharris : Z -> result (list float).
Variable fft_spectrum :
  ndarray2 float -> ndarray2 float -> result (ndarray2 complex).
Variable hypot : float -> float -> float.

Local Abbreviation new :=
  (__init__ signal_blackmanharris signal_windows_blackmanharris).
Local Abbreviation spectrum := (frame_spectrum fft_spectrum hypot).
Local Abbreviation update := (presence fft_spectrum hypot).
Local Abbreviation live :=
  (reachable signal_blackmanharris signal_windows_blackmanharris
     fft_spectrum hypot).

(** Lines 65 to 69 write nothing, and raise what the helper or the
    division raises. *)
Lemma frame_spectrum_run (mat : ndarray2 float)
  (s : PresenceAntiPeekingAlgo) :
  spectrum mat s =
  (s, rbind (fft_spectrum mat (range_window s))
        (fun range_fft =>
           np.divide (np.sum_axis0 (np_abs hypot range_fft))
             (num_chirps_per_frame s))).
Proof.
  unfold frame_spectrum. run_method.
  destruct (fft_spectrum mat (range_window s)); reflexivity.
Qed.

Lemma initialize_averages_config (fft_norm : list float)
  (s : PresenceAntiPeekingAlgo) :
  same_config s (fst (initialize_averages fft_norm s)) /\
  presence_status (fst (initialize_averages fft_norm s)) = presence_status s /\
  peeking_status (fst (initialize_averages fft_norm s)) = peeking_status s.
Proof.
  rewrite initialize_averages_run. unfold same_config.
  destruct (first_run s); cbn; repeat split; reflexivity.
Qed.

(** The update, step by step: the spectrum, then the three steps on the
    object that the one before left. *)
Lemma presence_run (mat : ndarray2 float) (s : PresenceAntiPeekingAlgo) :
  update mat s =
  match snd (spectrum mat s) with
  | inl e => (s, inl e)
  | inr fft_norm =>
      let s1 := fst (initialize_averages fft_norm s) in
      match presence_sensing (alpha_slow s) (alpha_med s) (alpha_fast s)
              fft_norm s1 with
      | (s2, inl e) => (s2, inl e)
      | (s2, inr _) =>
          match peeking_sensing (alpha_slow s) (alpha_med s) fft_norm s2 with
          | (s3, inl e) => (s3, inl e)
          | (s3, inr _) => (s3, inr (presence_status s3, peeking_status s3))
          end
      end
  end.
Proof.
  unfold presence, bind, attr, ret, ok.
  rewrite frame_spectrum_run. cbn [snd fst].
  destruct (rbind _ _) as [e|fft_norm]; [reflexivity|].
  cbv zeta. rewrite initialize_averages_run. cbn [fst].
  destruct (presence_sensing _ _ _ _ _) as [s2 [e|u]]; [reflexivity|].
  destruct (peeking_sensing _ _ _ _) as [s3 [e|u']]; reflexivity.
Qed.

(** An update that returns: the spectrum was computed, the three averages
    were found after line 76, each was written once from its value there,
    and each status is the comparison of its threshold with the maximum
    over its slice. *)
Lemma presence_returns (mat : ndarray2 float)
  (s s' : PresenceAntiPeekingAlgo) (out : bool * bool) :
  update mat s = (s', inr out) ->
  exists fft_norm slow fast slow_peek slow' fast' slow_peek'
         data top data_peek top_peek,
    spectrum mat s = (s, inr fft_norm) /\
    (let s1 := fst (initialize_averages fft_norm s) in
     slow_avg s1 = Some slow /\ fast_avg s1 = Some fast /\
     slow_peek_avg s1 = Some slow_peek /\
     s' = set_peeking_status (threshold_peeking s <? top_peek)%float
            (set_slow_peek_avg slow_peek'
               (set_presence_status (threshold_presence s <? top)%float
                  (set_fast_avg fast' (set_slow_avg slow' s1))))) /\
    ema slow fft_norm
      (if negb (presence_status s) then alpha_med s else alpha_slow s)
      = inr slow' /\
    ema fast fft_norm (alpha_fast s) = inr fast' /\
    np.subtract fast' slow' = inr data /\
    np.max (np.slice data (detect_start_sample s) (detect_end_sample s))
      = inr top /\
    ema slow_peek fft_norm
      (if negb (peeking_status s) then alpha_med s else alpha_slow s)
      = inr slow_peek' /\
    np.subtract fast' slow_peek' = inr data_peek /\
    np.max (np.slice data_peek (peek_start_sample s) (peek_end_sample s))
      = inr top_peek /\
    out = ((threshold_presence s <? top)%float,
           (threshold_peeking s <? top_peek)%float).
Proof.
  intros H. rewrite presence_run in H.
  pose proof (frame_spectrum_run mat s) as Hspec.
  destruct (spectrum mat s) as [s0 [e|fft_norm]]; cbn [snd] in H;
    [discriminate H|].
  injection Hspec as -> Hspec.
  cbv zeta in H.
  destruct (initialize_averages_config fft_norm s)
    as (Hcfg & Hpres & Hpeek).
  destruct Hcfg as (_ & _ & Hds & Hde & Hps & Hpe & Htp & Htk & _).
  set (s1 := fst (initialize_averages fft_norm s)) in *.
  destruct (presence_sensing _ _ _ _ s1) as [s2 [e|u]] eqn:P;
    [discriminate H|].
  destruct (peeking_sensing _ _ _ s2) as [s3 [e|u']] eqn:Q;
    [discriminate H|].
  injection H as <- <-.
  apply presence_sensing_returns in P.
  destruct P as (slow & fast & slow' & fast' & data & top
                 & Hslow & Hfast & Eslow & Efast & Edata & Etop & ->).
  apply peeking_sensing_returns in Q.
  destruct Q as (slow_peek & fast2 & slow_peek' & data_peek & top_peek
                 & Hpk & Hfast2 & Epk & Edp & Etp & ->).
  run_method. injection Hfast2 as <-.
  rewrite ?Hpres, ?Hpeek, ?Hds, ?Hde, ?Hps, ?Hpe, ?Htp, ?Htk in *.
  exists fft_norm, slow, fast, slow_peek, slow', fast', slow_peek',
    data, top, data_peek, top_peek.
  repeat split; auto.
Qed.

(** An update that raises: either the spectrum raised and nothing was
    written, or the averages were initialised and the sensing steps got
    through a prefix of their assignments. *)
Lemma presence_raises (mat : ndarray2 float)
  (s s' : PresenceAntiPeekingAlgo) (e : exn) :
  update mat s = (s', inl e) ->
  (spectrum mat s = (s, inl e) /\ s' = s) \/
  (exists fft_norm,
      spectrum mat s = (s, inr fft_norm) /\
      written_prefix (fst (initialize_averages fft_norm s)) s').
Proof.
  intros H. rewrite presence_run in H.
  pose proof (frame_spectrum_run mat s) as Hspec.
  destruct (spectrum mat s) as [s0 [e0|fft_norm]]; cbn [snd] in H;
    injection Hspec as -> Hspec.
  - injection H as <- <-. now left.
  - right. exists fft_norm. split; [reflexivity|].
    cbv zeta in H.
    set (s1 := fst (initialize_averages fft_norm s)) in *.
    destruct (presence_sensing _ _ _ _ s1) as [s2 [e1|u]] eqn:P.
    + injection H as <- <-.
      apply presence_sensing_raises in P.
      destruct P as [->|[[slow' ->]|(slow' & fast' & ->)]]; constructor.
    + apply presence_sensing_returns in P.
      destruct P as (slow & fast & slow' & fast' & data & top & P).
      destruct P as (_ & _ & _ & _ & _ & _ & ->).
      destruct (peeking_sensing _ _ _ _) as [s3 [e1|u']] eqn:Q;
        [|discriminate H].
      injection H as <- <-.
      apply peeking_sensing_raises in Q.
      destruct Q as [->|[slow_peek' ->]]; constructor.
Qed.

(** ** What every reachable object satisfies *)

Lemma init_returns (n c : Z) (s : PresenceAntiPeekingAlgo) :
  new n c = inr s ->
  configured s /\
  num_samples_per_chirp s = n /\ num_chirps_per_frame s = c /\
  first_run s = true /\
  presence_status s = false /\ peeking_status s = false /\
  slow_avg s = None /\ fast_avg s = None /\ slow_peek_avg s = None.
Proof.
  unfold __init__, rbind, ok. intros H.
  match type of H with
  | match ?r with _ => _ end = _ =>
      destruct r as [e|range_window]; [discriminate H|]
  end.
  injection H as <-. unfold configured. cbn. repeat split; reflexivity.
Qed.

Lemma written_prefix_config (s1 s' : PresenceAntiPeekingAlgo) :
  written_prefix s1 s' -> same_config s1 s' /\ first_run s' = first_run s1.
Proof.
  intros []; unfold same_config; read_attrs; repeat split; reflexivity.
Qed.

Lemma presence_same_config (mat : ndarray2 float)
  (s : PresenceAntiPeekingAlgo) :
  same_config s (fst (update mat s)).
Proof.
  destruct (update mat s) as [s' [e|out]] eqn:H; cbn [fst].
  - apply presence_raises in H.
    destruct H as [[_ ->]|(fft_norm & _ & W)].
    + unfold same_config; repeat split; reflexivity.
    + apply written_prefix_config in W. destruct W as [W _].
      destruct (initialize_averages_config fft_norm s) as [I _].
      unfold same_config in *.
      repeat match goal with H : _ /\ _ |- _ => destruct H end.
      repeat split; congruence.
  - apply presence_returns in H.
    destruct H as (fft_norm & slow & fast & slow_peek & slow' & fast'
                   & slow_peek' & data & top & data_peek & top_peek
                   & _ & (_ & _ & _ & ->) & _).
    destruct (initialize_averages_config fft_norm s) as [I _].
    unfold same_config in *. read_attrs.
    repeat match goal with H : _ /\ _ |- _ => destruct H end.
    repeat split; congruence.
Qed.

(** An update either writes nothing or leaves [first_run] false. *)
Lemma presence_first_run (mat : ndarray2 float)
  (s : PresenceAntiPeekingAlgo) :
  fst (update mat s) = s \/ first_run (fst (update mat s)) = false.
Proof.
  assert (I : forall fft_norm,
             first_run (fst (initialize_averages fft_norm s)) = false
             \/ fst (initialize_averages fft_norm s) = s).
  { intros f. rewrite initialize_averages_run.
    destruct (first_run s) eqn:F; cbn; auto. }
  destruct (update mat s) as [s' [e|out]] eqn:H; cbn [fst].
  - apply presence_raises in H.
    destruct H as [[_ ->]|(fft_norm & _ & W)]; [now left|].
    destruct (written_prefix_config _ _ W) as [_ F].
    destruct (I fft_norm) as [I'|I']; [right; congruence|].
    rewrite I' in *. destruct (first_run s) eqn:Fs; [|right; congruence].
    rewrite initialize_averages_run, Fs in I'. cbn in I'.
    rewrite <- I' in Fs. cbn in Fs. discriminate.
  - apply presence_returns in H.
    destruct H as (fft_norm & slow & fast & slow_peek & slow' & fast'
                   & slow_peek' & data & top & data_peek & top_peek
                   & _ & (_ & _ & _ & ->) & _).
    read_attrs. destruct (I fft_norm) as [I'|I']; [now right|].
    rewrite I'. destruct (first_run s) eqn:Fs; [|now right].
    rewrite initialize_averages_run, Fs in I'. cbn in I'.
    rewrite <- I' in Fs. cbn in Fs. discriminate.
Qed.

Lemma reachable_configured (s : PresenceAntiPeekingAlgo) :
  live s -> configured s.
Proof.
  induction 1 as [n c s H|s mat _ IH].
  - now apply init_returns in H.
  - pose proof (presence_same_config mat s) as C.
    unfold configured, same_config in *.
    repeat match goal with H : _ /\ _ |- _ => destruct H end.
    repeat split; congruence.
Qed.

(** Until a first frame has been taken both statuses are false. *)
Lemma reachable_fresh (s : PresenceAntiPeekingAlgo) :
  live s -> first_run s = true ->
  presence_status s = false /\ peeking_status s = false.
Proof.
  induction 1 as [n c s H|s mat _ IH]; intros F.
  - apply init_returns in H. tauto.
  - destruct (presence_first_run mat s) as [E|E].
    + rewrite E in *. auto.
    + congruence.
Qed.

(** ** Errors *)

(** C1 (as amended).  The update has no shape check of its own: a frame
    whose row count differs from [num_chirps_per_frame] or whose column
    count differs from [num_samples_per_chirp] is refused only when the
    FFT helper refuses it, and then the update raises the helper's
    exception and leaves the three averages, both statuses and every
    other attribute as they were. *)
Theorem presence_rejected_frame (mat : ndarray2 float)
  (s : PresenceAntiPeekingAlgo) (e : exn) :
  Z.of_nat (nrows mat) <> num_chirps_per_frame s \/
  Z.of_nat (ncols mat) <> num_samples_per_chirp s ->
  fft_spectrum mat (range_window s) = inl e ->
  update mat s = (s, inl e).
Proof.
  intros _ H. rewrite presence_run, frame_spectrum_run, H. reflexivity.
Qed.

(** C2 (as amended).  Construction checks neither argument.  Whatever
    [num_chirps_per_frame] is, construction succeeds when the window
    function returns [num_samples_per_chirp] coefficients, and stores both
    arguments as given; it fails exactly with the exception of the window
    function (of the second one, when the first name is absent), in which
    case there is no object. *)
Theorem init_checks_nothing (n c : Z) :
  (forall w, signal_blackmanharris n = inr w -> Z.of_nat (length w) = n ->
     exists s, new n c = inr s /\
       num_samples_per_chirp s = n /\ num_chirps_per_frame s = c) /\
  (forall w, signal_blackmanharris n = inl AttributeError ->
     signal_windows_blackmanharris n = inr w -> Z.of_nat (length w) = n ->
     exists s, new n c = inr s /\
       num_samples_per_chirp s = n /\ num_chirps_per_frame s = c) /\
  (forall e, signal_blackmanharris n = inl e -> e <> AttributeError ->
     new n c = inl e) /\
  (forall e, signal_blackmanharris n = inl AttributeError ->
     signal_windows_blackmanharris n = inl e -> new n c = inl e).
Proof.
  assert (R : forall w, Z.of_nat (length w) = n ->
                np.reshape_1 w n = inr (mk_ndarray2 (length w) [w])).
  { intros w L. unfold np.reshape_1.
    rewrite (proj2 (Z.eqb_eq n (Z.of_nat (length w)))) by auto.
    now rewrite orb_true_r. }
  repeat split.
  - intros w H L. unfold __init__, rbind. rewrite H, (R w L).
    eexists; split; [reflexivity|]. split; reflexivity.
  - intros w H H' L. unfold __init__, rbind. rewrite H, H', (R w L).
    eexists; split; [reflexivity|]. split; reflexivity.
  - intros e H Ne. unfold __init__, rbind. rewrite H.
    destruct e; try reflexivity. now elim Ne.
  - intros e H H'. unfold __init__, rbind. rewrite H, H'. reflexivity.
Qed.

(** C8 (as amended).  Every exception reaches the caller, but only a
    failure of the spectral step (the FFT helper, or the division by the
    number of chirps) leaves the object untouched.  An update that raises
    and has changed the object raised in a sensing step, after the
    averages were initialised and a prefix of the assignments to
    [slow_avg], [fast_avg], [presence_status] and [slow_peek_avg] was
    made. *)
Theorem presence_commits_before_raising (mat : ndarray2 float)
  (s : PresenceAntiPeekingAlgo) :
  (forall e, snd (spectrum mat s) = inl e -> update mat s = (s, inl e)) /\
  (forall s' e, update mat s = (s', inl e) -> s' <> s ->
     exists fft_norm,
       spectrum mat s = (s, inr fft_norm) /\
       written_prefix (fst (initialize_averages fft_norm s)) s' /\
       first_run s' = false).
Proof.
  split.
  - intros e H. rewrite presence_run, H. reflexivity.
  - intros s' e H Ne.
    pose proof (presence_first_run mat s) as F. rewrite H in F.
    cbn [fst] in F. destruct F as [F|F]; [contradiction|].
    apply presence_raises in H.
    destruct H as [[_ ->]|(fft_norm & Hs & W)]; [now elim Ne|].
    exists fft_norm. auto.
Qed.

(** ** Windows *)

Lemma slice_empty {A : Type} (xs : list A) (i : Z) :
  np.slice xs i i = [].
Proof.
  unfold np.slice. now rewrite Z.sub_diag.
Qed.

(** A slice with bounds that are not negative reads the entries between
    its bounds and no other. *)
Lemma slice_local {A : Type} (xs ys : list A) (lo hi : Z) :
  0 <= lo -> 0 <= hi -> length xs = length ys ->
  (forall i : nat, lo <= Z.of_nat i < hi ->
                   nth_error xs i = nth_error ys i) ->
  np.slice xs lo hi = np.slice ys lo hi.
Proof.
  intros Hlo Hhi L H. unfold np.slice, np.slice_index. rewrite <- L.
  destruct (Z.ltb_spec lo 0); [lia|]. destruct (Z.ltb_spec hi 0); [lia|].
  set (len := Z.of_nat (length xs)).
  apply nth_error_ext. intros i.
  rewrite !nth_error_firstn, !nth_error_skipn.
  destruct (Nat.ltb_spec i (Z.to_nat (Z.min hi len - Z.min lo len)));
    [|reflexivity].
  destruct (Z.le_gt_cases len lo) as [Hl|Hl].
  - rewrite Z.min_r in * by lia.
    rewrite !(proj2 (nth_error_None _ _)); [reflexivity | |];
      rewrite <- ?L; subst len; lia.
  - rewrite Z.min_l in * by lia. apply H. lia.
Qed.

(** C9.  With one sample per chirp the detect window is empty, so the
    maximum at line 87 raises [ValueError] whatever the differential is:
    no call of the update ever returns, and none ever reaches the
    assignment of a status. *)
Theorem single_sample_never_returns (mat : ndarray2 float)
  (s : PresenceAntiPeekingAlgo) :
  live s -> num_samples_per_chirp s = 1 ->
  (detect_start_sample s, detect_end_sample s) = (0, 0) /\
  (forall data,
     np.max (np.slice data (detect_start_sample s) (detect_end_sample s))
     = inl ValueError) /\
  exists s' e,
    update mat s = (s', inl e) /\
    presence_status s' = presence_status s /\
    peeking_status s' = peeking_status s.
Proof.
  intros L N. apply reachable_configured in L.
  destruct L as (Ds & De & _). rewrite N in Ds, De.
  change (1 / 8) with 0 in Ds. change (1 / 2) with 0 in De.
  rewrite Ds, De. split; [reflexivity|].
  assert (M : forall data : list float,
             np.max (np.slice data 0 0) = inl ValueError).
  { intros data. now rewrite slice_empty. }
  split; [exact M|].
  rewrite presence_run.
  destruct (snd (spectrum mat s)) as [e|fft_norm].
  - exists s, e. auto.
  - cbv zeta.
    destruct (initialize_averages_config fft_norm s)
      as (Hcfg & Hpres & Hpeek).
    destruct Hcfg as (_ & _ & Hds & Hde & _).
    set (s1 := fst (initialize_averages fft_norm s)) in *.
    destruct (presence_sensing _ _ _ _ s1) as [s2 [e|u]] eqn:P.
    + exists s2, e. split; [reflexivity|].
      apply presence_sensing_raises in P.
      destruct P as [->|[[slow' ->]|(slow' & fast' & ->)]];
        read_attrs; auto.
    + apply presence_sensing_returns in P.
      destruct P as (slow & fast & slow' & fast' & data & top & P).
      destruct P as (_ & _ & _ & _ & _ & P & _).
      rewrite Hds, Hde, Ds, De, M in P. discriminate P.
Qed.

(** C5.  The window bounds are those of the floor divisions of lines 27 to
    30, the detect window being the bins [n/8, n/2) and the peek window
    the bins [n/2, n) of [n = num_samples_per_chirp], that is [32, 128)
    and [128, 256) for 256 samples.  After an update each status is the
    threshold test of the maximum over its own window of its own
    differential, and the slice of a window reads no bin outside it. *)
Theorem windows_by_floor_division (s : PresenceAntiPeekingAlgo) :
  live s ->
  let n := num_samples_per_chirp s in
  (detect_start_sample s, detect_end_sample s) = (n / 8, n / 2) /\
  (peek_start_sample s, peek_end_sample s) = (n / 2, n) /\
  (n = 256 ->
   (detect_start_sample s, detect_end_sample s) = (32, 128) /\
   (peek_start_sample s, peek_end_sample s) = (128, 256)) /\
  (forall mat s' out,
      update mat s = (s', inr out) ->
      exists fast slow slow_peek data data_peek top top_peek,
        fast_avg s' = Some fast /\ slow_avg s' = Some slow /\
        slow_peek_avg s' = Some slow_peek /\
        np.subtract fast slow = inr data /\
        np.subtract fast slow_peek = inr data_peek /\
        np.max (np.slice data (n / 8) (n / 2)) = inr top /\
        presence_status s' = (threshold_presence s <? top)%float /\
        np.max (np.slice data_peek (n / 2) n) = inr top_peek /\
        peeking_status s' = (threshold_peeking s <? top_peek)%float) /\
  (0 <= n ->
   forall xs ys : list float,
     length xs = length ys ->
     ((forall i : nat, n / 8 <= Z.of_nat i < n / 2 ->
                       nth_error xs i = nth_error ys i) ->
      np.slice xs (n / 8) (n / 2) = np.slice ys (n / 8) (n / 2)) /\
     ((forall i : nat, n / 2 <= Z.of_nat i < n ->
                       nth_error xs i = nth_error ys i) ->
      np.slice xs (n / 2) n = np.slice ys (n / 2) n)).
Proof.
  intros L n. apply reachable_configured in L.
  destruct L as (Ds & De & Ps & Pe & _). fold n in Ds, De, Ps, Pe.
  rewrite Ds, De, Ps, Pe.
  split; [reflexivity|]. split; [reflexivity|]. split.
  { intros ->. split; reflexivity. }
  split.
  - intros mat s' out H. apply presence_returns in H.
    destruct H as (fft_norm & slow & fast & slow_peek & slow' & fast'
                   & slow_peek' & data & top & data_peek & top_peek
                   & _ & (_ & _ & _ & ->) & _ & _ & Ed & Et & _ & Edp
                   & Etp & _).
    rewrite Ds, De in Et. rewrite Ps, Pe in Etp.
    exists fast', slow', slow_peek', data, data_peek, top, top_peek.
    read_attrs. repeat split; auto.
  - intros N xs ys Len. split; intros H.
    + apply slice_local; auto; apply Z.div_pos; lia.
    + apply slice_local; auto; try apply Z.div_pos; lia.
Qed.

(** ** Averages *)

(** C3.  An update that returns has written [fast_avg] once, from its
    value after line 76 (its value before the call on every frame but the
    first) and with the coefficient 0.6 whatever the statuses are; the
    peeking differential is that new [fast_avg] minus the new
    [slow_peek_avg], and the peeking status is the threshold test of its
    maximum over the peek window. *)
Theorem fast_avg_written_once (mat : ndarray2 float)
  (s s' : PresenceAntiPeekingAlgo) (out : bool * bool) :
  live s -> update mat s = (s', inr out) ->
  exists fft_norm fast fast' slow_peek' data_peek top_peek,
    spectrum mat s = (s, inr fft_norm) /\
    fast_avg (fst (initialize_averages fft_norm s)) = Some fast /\
    (first_run s = false -> fast_avg s = Some fast) /\
    np.add (np.scale fast (1 - 0.6)%float) (np.scale fft_norm 0.6%float)
      = inr fast' /\
    fast_avg s' = Some fast' /\
    slow_peek_avg s' = Some slow_peek' /\
    np.subtract fast' slow_peek' = inr data_peek /\
    np.max (np.slice data_peek (peek_start_sample s) (peek_end_sample s))
      = inr top_peek /\
    peeking_status s' = (0.0006 <? top_peek)%float /\
    snd out = peeking_status s'.
Proof.
  intros L H. apply reachable_configured in L.
  destruct L as (_ & _ & _ & _ & _ & Tk & _ & _ & Af).
  apply presence_returns in H.
  destruct H as (fft_norm & slow & fast & slow_peek & slow' & fast'
                 & slow_peek' & data & top & data_peek & top_peek
                 & Hs & (_ & Hf & _ & ->) & _ & Ef & _ & _ & _ & Edp
                 & Etp & ->).
  rewrite Af in Ef. rewrite Tk.
  exists fft_norm, fast, fast', slow_peek', data_peek, top_peek.
  read_attrs. repeat split; auto.
  intros F. rewrite initialize_averages_run, F in Hf. exact Hf.
Qed.

(** C4.  An update that returns has written [slow_avg] with the
    coefficient 0.05 when [presence_status] was false before the call and
    0.001 when it was true, and [slow_peek_avg] with 0.05 or 0.001 by
    [peeking_status] before the call, each as
    [avg * (1 - coef) + fft_norm * coef]. *)
Theorem slow_averages_adapt (mat : ndarray2 float)
  (s s' : PresenceAntiPeekingAlgo) (out : bool * bool) :
  live s -> update mat s = (s', inr out) ->
  exists fft_norm slow slow_peek slow' slow_peek',
    spectrum mat s = (s, inr fft_norm) /\
    slow_avg (fst (initialize_averages fft_norm s)) = Some slow /\
    slow_peek_avg (fst (initialize_averages fft_norm s)) = Some slow_peek /\
    (first_run s = false ->
     slow_avg s = Some slow /\ slow_peek_avg s = Some slow_peek) /\
    (let coef := if presence_status s then 0.001%float else 0.05%float in
     np.add (np.scale slow (1 - coef)%float) (np.scale fft_norm coef)
       = inr slow') /\
    slow_avg s' = Some slow' /\
    (let coef := if peeking_status s then 0.001%float else 0.05%float in
     np.add (np.scale slow_peek (1 - coef)%float) (np.scale fft_norm coef)
       = inr slow_peek') /\
    slow_peek_avg s' = Some slow_peek'.
Proof.
  intros L H. apply reachable_configured in L.
  destruct L as (_ & _ & _ & _ & _ & _ & As & Am & _).
  apply presence_returns in H.
  destruct H as (fft_norm & slow & fast & slow_peek & slow' & fast'
                 & slow_peek' & data & top & data_peek & top_peek
                 & Hs & (Hsl & _ & Hpk & ->) & Es & _ & _ & _ & Ep & _).
  rewrite As, Am in Es, Ep.
  exists fft_norm, slow, slow_peek, slow', slow_peek'.
  read_attrs. repeat split; auto;
    try (destruct (presence_status s); exact Es);
    try (destruct (peeking_status s); exact Ep);
    match goal with
    | F : first_run s = false |- _ =>
        rewrite initialize_averages_run, F in Hsl, Hpk; assumption
    end.
Qed.

(** C7.  Both comparisons are strict.  After an update that returns, the
    presence status is [0.0007 < top] for the maximum [top] of the
    presence differential over the detect window: false when [top] is
    0.0007 itself, true when [top] is greater; and the peeking status is
    [0.0006 < top_peek] in the same way. *)
Theorem thresholds_are_strict (mat : ndarray2 float)
  (s s' : PresenceAntiPeekingAlgo) (out : bool * bool) :
  live s -> update mat s = (s', inr out) ->
  exists fast slow slow_peek data data_peek top top_peek,
    fast_avg s' = Some fast /\ slow_avg s' = Some slow /\
    slow_peek_avg s' = Some slow_peek /\
    np.subtract fast slow = inr data /\
    np.subtract fast slow_peek = inr data_peek /\
    np.max (np.slice data (detect_start_sample s) (detect_end_sample s))
      = inr top /\
    np.max (np.slice data_peek (peek_start_sample s) (peek_end_sample s))
      = inr top_peek /\
    out = (presence_status s', peeking_status s') /\
    presence_status s' = (0.0007 <? top)%float /\
    (top = 0.0007%float -> presence_status s' = false) /\
    ((0.0007 <? top)%float = true -> presence_status s' = true) /\
    peeking_status s' = (0.0006 <? top_peek)%float /\
    (top_peek = 0.0006%float -> peeking_status s' = false) /\
    ((0.0006 <? top_peek)%float = true -> peeking_status s' = true).
Proof.
  intros L H. apply reachable_configured in L.
  destruct L as (_ & _ & _ & _ & Tp & Tk & _).
  apply presence_returns in H.
  destruct H as (fft_norm & slow & fast & slow_peek & slow' & fast'
                 & slow_peek' & data & top & data_peek & top_peek
                 & _ & (_ & _ & _ & ->) & _ & _ & Ed & Et & _ & Edp
                 & Etp & ->).
  rewrite Tp, Tk.
  exists fast', slow', slow_peek', data, data_peek, top, top_peek.
  read_attrs. repeat split; auto; intros ->; reflexivity.
Qed.

(** ** Presence and peeking *)

Lemma ema_shape (avg fft_norm : list float) (alpha : float) :
  match broadcast_length (length avg) (length fft_norm) with
  | Some n => exists zs, ema avg fft_norm alpha = inr zs /\ length zs = n
  | None => ema avg fft_norm alpha = inl ValueError
  end.
Proof.
  unfold ema, np.add.
  pose proof (binop_shape PrimFloat.add
                (np.scale avg (1 - alpha)) (np.scale fft_norm alpha)) as B.
  now rewrite !scale_length in B.
Qed.

(** The presence step, one failure point after the other. *)
Lemma presence_sensing_run (a_slow a_med a_fast : float)
  (fft_norm : list float) (s : PresenceAntiPeekingAlgo) :
  presence_sensing a_slow a_med a_fast fft_norm s =
  match slow_avg s with
  | None => (s, inl AttributeError)
  | Some slow =>
  match ema slow fft_norm
          (if negb (presence_status s) then a_med else a_slow) with
  | inl e => (s, inl e)
  | inr slow' =>
  match fast_avg s with
  | None => (set_slow_avg slow' s, inl AttributeError)
  | Some fast =>
  match ema fast fft_norm a_fast with
  | inl e => (set_slow_avg slow' s, inl e)
  | inr fast' =>
  match np.subtract fast' slow' with
  | inl e => (set_fast_avg fast' (set_slow_avg slow' s), inl e)
  | inr data =>
  match np.max (np.slice data (detect_start_sample s)
                  (detect_end_sample s)) with
  | inl e => (set_fast_avg fast' (set_slow_avg slow' s), inl e)
  | inr top =>
      (set_presence_status (threshold_presence s <? top)%float
         (set_fast_avg fast' (set_slow_avg slow' s)), inr tt)
  end end end end end end.
Proof.
  run_method.
  destruct (slow_avg s); [|reflexivity].
  destruct (ema _ _ _); [reflexivity|].
  destruct (fast_avg s); [|reflexivity].
  destruct (ema _ _ _); [reflexivity|].
  destruct (np.subtract _ _); [reflexivity|].
  destruct (np.max _); reflexivity.
Qed.

Lemma peeking_sensing_run (a_slow a_med : float)
  (fft_norm : list float) (s : PresenceAntiPeekingAlgo) :
  peeking_sensing a_slow a_med fft_norm s =
  match slow_peek_avg s with
  | None => (s, inl AttributeError)
  | Some slow_peek =>
  match ema slow_peek fft_norm
          (if negb (peeking_status s) then a_med else a_slow) with
  | inl e => (s, inl e)
  | inr slow_peek' =>
  match fast_avg s with
  | None => (set_slow_peek_avg slow_peek' s, inl AttributeError)
  | Some fast =>
  match np.subtract fast slow_peek' with
  | inl e => (set_slow_peek_avg slow_peek' s, inl e)
  | inr data_peek =>
  match np.max (np.slice data_peek (peek_start_sample s)
                  (peek_end_sample s)) with
  | inl e => (set_slow_peek_avg slow_peek' s, inl e)
  | inr top =>
      (set_peeking_status (threshold_peeking s <? top)%float
         (set_slow_peek_avg slow_peek' s), inr tt)
  end end end end end.
Proof.
  run_method.
  destruct (slow_peek_avg s); [|reflexivity].
  destruct (ema _ _ _); [reflexivity|].
  destruct (fast_avg s); [|reflexivity].
  destruct (np.subtract _ _); [reflexivity|].
  destruct (np.max _); reflexivity.
Qed.

(** The presence step run from two objects that differ in
    [presence_status] raises or returns on both, and leaves two objects
    that the peeking step cannot tell apart. *)
Lemma presence_sensing_blind (a_slow a_med a_fast : float)
  (fft_norm : list float) (s : PresenceAntiPeekingAlgo) (b : bool) :
  let r := presence_sensing a_slow a_med a_fast fft_norm s in
  let r' := presence_sensing a_slow a_med a_fast fft_norm
              (set_presence_status b s) in
  peek_view (fst r) = peek_view (fst r') /\ same_outcome (snd r) (snd r').
Proof.
  cbv zeta. rewrite !presence_sensing_run. read_attrs.
  destruct (slow_avg s) as [slow|]; [|split; reflexivity].
  pose proof (ema_shape slow fft_norm
                (if negb (presence_status s) then a_med else a_slow)) as E1.
  pose proof (ema_shape slow fft_norm
                (if negb b then a_med else a_slow)) as E2.
  destruct (broadcast_length (length slow) (length fft_norm)) as [n|];
    [|rewrite E1, E2; split; reflexivity].
  destruct E1 as (slow1 & -> & L1). destruct E2 as (slow2 & -> & L2).
  destruct (fast_avg s) as [fast|]; [|split; reflexivity].
  destruct (ema fast fft_norm a_fast) as [e|fast']; [split; reflexivity|].
  pose proof (binop_shape PrimFloat.sub fast' slow1) as D1.
  pose proof (binop_shape PrimFloat.sub fast' slow2) as D2.
  fold np.subtract in D1, D2. rewrite L1 in D1. rewrite L2 in D2.
  destruct (broadcast_length (length fast') n) as [m|];
    [|rewrite D1, D2; split; reflexivity].
  destruct D1 as (data1 & -> & M1). destruct D2 as (data2 & -> & M2).
  pose proof (max_shape
                (np.slice data1 (detect_start_sample s) (detect_end_sample s))
                (np.slice data2 (detect_start_sample s) (detect_end_sample s))
                (slice_length data1 data2 _ _ (eq_trans M1 (eq_sym M2))))
    as T.
  destruct (np.max (np.slice data1 _ _)) as [e1|top1],
           (np.max (np.slice data2 _ _)) as [e2|top2];
    try contradiction; split; auto; reflexivity.
Qed.

(** The peeking step reads nothing that [peek_view] hides. *)
Lemma peeking_sensing_blind (a_slow a_med : float) (fft_norm : list float)
  (s t : PresenceAntiPeekingAlgo) :
  peek_view s = peek_view t ->
  let r := peeking_sensing a_slow a_med fft_norm s in
  let r' := peeking_sensing a_slow a_med fft_norm t in
  peek_view (fst r) = peek_view (fst r') /\ snd r = snd r'.
Proof.
  intros V. cbv zeta. rewrite !peeking_sensing_run.
  pose proof (f_equal slow_peek_avg V) as V1.
  pose proof (f_equal peeking_status V) as V2.
  pose proof (f_equal fast_avg V) as V3.
  pose proof (f_equal peek_start_sample V) as V4.
  pose proof (f_equal peek_end_sample V) as V5.
  pose proof (f_equal threshold_peeking V) as V6.
  unfold peek_view in V1, V2, V3, V4, V5, V6. read_attrs.
  rewrite <- V1, <- V2, <- V3, <- V4, <- V5, <- V6.
  assert (W : forall v, peek_view (set_slow_peek_avg v s)
                        = peek_view (set_slow_peek_avg v t)).
  { intros v. exact (f_equal (set_slow_peek_avg v) V). }
  assert (W' : forall v c, peek_view (set_peeking_status c
                                        (set_slow_peek_avg v s))
                           = peek_view (set_peeking_status c
                                          (set_slow_peek_avg v t))).
  { intros v c.
    exact (f_equal (fun x => set_peeking_status c (set_slow_peek_avg v x))
             V). }
  destruct (slow_peek_avg s); [|now split].
  match goal with
  | |- context [ema ?a ?f ?c] => destruct (ema a f c)
  end; [now split|].
  destruct (fast_avg s); [|split; cbn [fst snd]; auto].
  match goal with
  | |- context [np.subtract ?a ?c] => destruct (np.subtract a c)
  end; [split; cbn [fst snd]; auto|].
  match goal with
  | |- context [np.max ?a] => destruct (np.max a)
  end; split; cbn [fst snd]; auto.
Qed.

(** C10.  For two objects that differ at most in [presence_status], the
    update on the same frame raises on both or returns on both, with the
    same exception or the same peeking boolean, and leaves the same
    [slow_peek_avg], the same [fast_avg] and the same [peeking_status]. *)
Theorem peeking_ignores_presence_status (mat : ndarray2 float)
  (s : PresenceAntiPeekingAlgo) (b : bool) :
  let r := update mat s in
  let r' := update mat (set_presence_status b s) in
  slow_peek_avg (fst r) = slow_peek_avg (fst r') /\
  fast_avg (fst r) = fast_avg (fst r') /\
  peeking_status (fst r) = peeking_status (fst r') /\
  match snd r, snd r' with
  | inr out, inr out' => snd out = snd out'
  | inl e, inl e' => e = e'
  | _, _ => False
  end.
Proof.
  cbv zeta.
  assert (V : forall x y : PresenceAntiPeekingAlgo,
             peek_view x = peek_view y ->
             slow_peek_avg x = slow_peek_avg y /\
             fast_avg x = fast_avg y /\
             peeking_status x = peeking_status y).
  { intros x y E. repeat split.
    - exact (f_equal slow_peek_avg E).
    - exact (f_equal fast_avg E).
    - exact (f_equal peeking_status E). }
  rewrite !presence_run, !frame_spectrum_run. read_attrs.
  destruct (rbind _ _) as [e|fft_norm]; cbn [snd].
  { read_attrs. repeat split; reflexivity. }
  cbv zeta.
  assert (I : fst (initialize_averages fft_norm (set_presence_status b s))
              = set_presence_status b
                  (fst (initialize_averages fft_norm s))).
  { rewrite !initialize_averages_run. read_attrs.
    destruct (first_run s); reflexivity. }
  rewrite I. set (s1 := fst (initialize_averages fft_norm s)).
  pose proof (presence_sensing_blind (alpha_slow s) (alpha_med s)
                (alpha_fast s) fft_norm s1 b) as P.
  cbv zeta in P.
  destruct (presence_sensing _ _ _ _ s1) as [s2 [e|u]],
           (presence_sensing _ _ _ _ (set_presence_status b s1))
             as [t2 [e'|u']];
    cbn [fst snd] in P; destruct P as [P O]; unfold same_outcome in O;
    try contradiction.
  { cbn [fst snd]. destruct (V _ _ P) as (? & ? & ?). auto. }
  pose proof (peeking_sensing_blind (alpha_slow s) (alpha_med s)
                fft_norm s2 t2 P) as Q.
  cbv zeta in Q.
  destruct (peeking_sensing _ _ _ s2) as [s3 [e|v]],
           (peeking_sensing _ _ _ t2) as [t3 [e'|v']];
    cbn [fst snd] in Q; destruct Q as [Q O']; try discriminate O';
    cbn [fst snd]; destruct (V _ _ Q) as (? & ? & ?);
    repeat split; auto.
  now injection O'.
Qed.

(** ** The first frame *)

Lemma zip_with_repeat (f : float -> float -> float) (a b : float)
  (k : nat) :
  np.zip_with f (repeat a k) (repeat b k) = repeat (f a b) k.
Proof. induction k as [|k IH]; simpl; [|rewrite IH]; reflexivity. Qed.

Lemma binop_repeat (f : float -> float -> float) (a b : float) (k : nat) :
  np.binop f (repeat a k) (repeat b k) = inr (repeat (f a b) k).
Proof.
  unfold np.binop. rewrite !repeat_length, Nat.eqb_refl, zip_with_repeat.
  reflexivity.
Qed.

Lemma ema_repeat (z z' alpha : float) (k : nat) :
  ema (repeat z k) (repeat z' k) alpha
  = inr (repeat (z * (1 - alpha) + z' * alpha)%float k).
Proof.
  unfold ema, np.add, np.scale. rewrite !map_repeat. apply binop_repeat.
Qed.

Lemma firstn_repeat {A : Type} (a : A) (m k : nat) :
  firstn m (repeat a k) = repeat a (Nat.min m k).
Proof.
  revert k; induction m as [|m IH]; intros [|k]; simpl; try reflexivity.
  now rewrite IH.
Qed.

Lemma skipn_repeat {A : Type} (a : A) (j k : nat) :
  skipn j (repeat a k) = repeat a (k - j).
Proof.
  revert k; induction j as [|j IH]; intros [|k]; simpl; try reflexivity.
  apply IH.
Qed.

(** A slice of a constant array inside its bounds. *)
Lemma slice_repeat {A : Type} (a : A) (k : nat) (lo hi : Z) :
  0 <= lo <= hi -> hi <= Z.of_nat k ->
  np.slice (repeat a k) lo hi = repeat a (Z.to_nat (hi - lo)).
Proof.
  intros B B'. unfold np.slice, np.slice_index. rewrite repeat_length.
  destruct (Z.ltb_spec lo 0); [lia|]. destruct (Z.ltb_spec hi 0); [lia|].
  rewrite !Z.min_l by lia.
  rewrite skipn_repeat, firstn_repeat. f_equal. lia.
Qed.

Lemma max_repeat (d : float) (m : nat) :
  np.maximum d d = d -> np.max (repeat d (S m)) = inr d.
Proof.
  intros I. simpl. unfold ok. f_equal.
  induction m as [|m IH]; simpl; [reflexivity|]. now rewrite I.
Qed.

(** The magnitudes of a silent spectrum add up to zero in every bin. *)
Lemma sum_axis0_silent (range_fft : ndarray2 complex) :
  silent hypot range_fft ->
  np.sum_axis0 (np_abs hypot range_fft) = repeat 0%float (ncols range_fft).
Proof.
  unfold silent, np.sum_axis0, np_abs. cbn [rows ncols].
  generalize (ncols range_fft) as k. intros k.
  induction (rows range_fft) as [|row rest IH]; intros S; [reflexivity|].
  inversion_clear S as [|? ? [Len Z] S']. cbn [map fold_left].
  assert (R : map (fun z : complex => hypot (fst z) (snd z)) row
              = repeat 0%float k).
  { rewrite <- Len. clear -Z.
    induction Z as [|z row Hz _ IHrow]; simpl; [reflexivity|].
    now rewrite Hz, IHrow. }
  rewrite R, zip_with_repeat. change (0 + 0)%float with 0%float.
  now apply IH.
Qed.

(** Zero divided by any float is a zero or a NaN. *)
Lemma zero_div (c : float) : zero_or_nan (0 / c)%float.
Proof.
  pose proof (div_spec 0 c) as H.
  rewrite <- (SF2Prim_Prim2SF (0 / c)), H.
  change (Prim2SF 0) with (S754_zero false).
  unfold zero_or_nan, SF64div, SFdiv.
  destruct (Prim2SF c) as [[|]|[|]| |[|] m e]; cbn [xorb]; auto.
Qed.

(** On a first frame of zeros, or of NaNs, no bin is above a threshold. *)
Lemma first_differential_quiet (z : float) :
  zero_or_nan z ->
  let d := first_differential z 0.05 in
  np.maximum d d = d /\
  (0.0007 <? d)%float = false /\ (0.0006 <? d)%float = false.
Proof.
  intros [-> | [-> | ->]]; vm_compute; repeat split; reflexivity.
Qed.

(** C6 (as amended).  On a first frame the three averages are set to the
    normalised spectrum and [first_run] is cleared, and the update goes on
    through both sensing steps from the object so initialised.  When the
    frame's spectrum is silent, as that of all-zero samples is, and the
    object has at least two samples per chirp, the update returns
    [(false, false)]. *)
Theorem first_frame_initialises (mat : ndarray2 float)
  (s : PresenceAntiPeekingAlgo) (fft_norm : list float) :
  first_run s = true ->
  spectrum mat s = (s, inr fft_norm) ->
  let s1 := fst (initialize_averages fft_norm s) in
  slow_avg s1 = Some fft_norm /\
  fast_avg s1 = Some fft_norm /\
  slow_peek_avg s1 = Some fft_norm /\
  first_run s1 = false /\
  update mat s =
    (presence_sensing (alpha_slow s) (alpha_med s) (alpha_fast s) fft_norm ;;
     peeking_sensing (alpha_slow s) (alpha_med s) fft_norm ;;
     presence_now <- attr presence_status ;;
     peeking_now <- attr peeking_status ;;
     ret (presence_now, peeking_now))%method s1 /\
  (live s ->
   2 <= num_samples_per_chirp s ->
   (exists range_fft,
       fft_spectrum mat (range_window s) = inr range_fft /\
       silent hypot range_fft /\
       Z.of_nat (ncols range_fft) = num_samples_per_chirp s) ->
   exists s', update mat s = (s', inr (false, false))).
Proof.
  intros F Hs s1.
  assert (E1 : s1 = set_first_run false
                      (set_slow_peek_avg fft_norm
                         (set_fast_avg fft_norm (set_slow_avg fft_norm s)))).
  { unfold s1. now rewrite initialize_averages_run, F. }
  assert (U : update mat s =
              (presence_sensing (alpha_slow s) (alpha_med s) (alpha_fast s)
                 fft_norm ;;
               peeking_sensing (alpha_slow s) (alpha_med s) fft_norm ;;
               presence_now <- attr presence_status ;;
               peeking_now <- attr peeking_status ;;
               ret (presence_now, peeking_now))%method s1).
  { rewrite presence_run, Hs. cbn [snd]. cbv zeta. fold s1.
    unfold bind, attr, ret, ok.
    destruct (presence_sensing _ _ _ _ s1) as [s2 [e|u]]; [reflexivity|].
    destruct (peeking_sensing _ _ _ s2) as [s3 [e|u']]; reflexivity. }
  repeat split; try (rewrite E1; reflexivity); [exact U|].
  intros L N (range_fft & Hfft & Hsil & Hcols).
  destruct (reachable_fresh s L F) as [Pf Kf].
  destruct (reachable_configured s L)
    as (Ds & De & Ps & Pe & Tp & Tk & As & Am & Af).
  (* the normalised spectrum is constant *)
  rewrite frame_spectrum_run, Hfft in Hs. cbn [rbind] in Hs.
  rewrite (sum_axis0_silent range_fft Hsil) in Hs.
  unfold np.divide, rbind, ok in Hs.
  destruct (np.float_of_int (num_chirps_per_frame s)) as [e|c];
    [discriminate Hs|].
  rewrite map_repeat in Hs. injection Hs as Hs.
  set (k := ncols range_fft) in *. set (z := (0 / c)%float) in *.
  destruct (first_differential_quiet z (zero_div c)) as (Mx & Qp & Qk).
  set (d := first_differential z 0.05) in *.
  (* the two sensing steps *)
  rewrite U, E1. subst fft_norm.
  unfold bind at 1. rewrite presence_sensing_run. read_attrs.
  rewrite Pf, Am, Af, Ds, De, Tp. cbn [negb].
  rewrite !ema_repeat. unfold np.subtract. rewrite binop_repeat.
  fold (first_differential z 0.05). fold d.
  set (n := num_samples_per_chirp s) in *.
  assert (B : 0 <= n / 8 /\ n / 8 < n / 2 /\ n / 2 < n).
  { pose proof (Z.div_mod n 8 ltac:(lia)).
    pose proof (Z.mod_pos_bound n 8 ltac:(lia)).
    pose proof (Z.div_mod n 2 ltac:(lia)).
    pose proof (Z.mod_pos_bound n 2 ltac:(lia)). lia. }
  rewrite slice_repeat by lia.
  destruct (Z.to_nat (n / 2 - n / 8)) as [|m] eqn:W; [lia|].
  rewrite (max_repeat d m Mx), Qp.
  unfold bind at 1. rewrite peeking_sensing_run. read_attrs.
  rewrite Kf, Ps, Pe, Tk. cbn [negb].
  rewrite !ema_repeat. unfold np.subtract. rewrite binop_repeat.
  fold (first_differential z 0.05). fold d. fold n.
  rewrite slice_repeat by lia.
  destruct (Z.to_nat (n - n / 2)) as [|m'] eqn:W'; [lia|].
  rewrite (max_repeat d m' Mx), Qk.
  unfold bind, attr, ret, ok. read_attrs.
  eexists. reflexivity.
Qed.

(** ** Further invariants of the update *)

(** The update, whether it returns or raises, leaves the configuration as
    it found it (the two sizes, the four window bounds, the thresholds, the
    coefficients and the window), and never sets [first_run] again once it
    is cleared. *)
Theorem presence_keeps_configuration (mat : ndarray2 float)
  (s : PresenceAntiPeekingAlgo) :
  same_config s (fst (update mat s)) /\
  (first_run s = false -> first_run (fst (update mat s)) = false).
Proof.
  split; [apply presence_same_config|].
  intros F. destruct (presence_first_run mat s) as [E|E].
  - now rewrite E.
  - exact E.
Qed.

Lemma initialize_averages_sets (fft_norm : list float)
  (s : PresenceAntiPeekingAlgo) :
  averages_follow_first_run s ->
  let s1 := fst (initialize_averages fft_norm s) in
  first_run s1 = false /\
  slow_avg s1 <> None /\ fast_avg s1 <> None /\ slow_peek_avg s1 <> None.
Proof.
  unfold averages_follow_first_run. rewrite initialize_averages_run.
  destruct (first_run s) eqn:F; cbn [fst]; read_attrs.
  - intros _. repeat split; discriminate.
  - intros H. split; [exact F|exact H].
Qed.

Lemma written_prefix_sets (s1 s' : PresenceAntiPeekingAlgo) :
  written_prefix s1 s' ->
  slow_avg s1 <> None /\ fast_avg s1 <> None /\ slow_peek_avg s1 <> None ->
  slow_avg s' <> None /\ fast_avg s' <> None /\ slow_peek_avg s' <> None.
Proof.
  intros [] (A & B & C); read_attrs; repeat split;
    try assumption; discriminate.
Qed.

Lemma presence_averages (mat : ndarray2 float) (s : PresenceAntiPeekingAlgo) :
  averages_follow_first_run s ->
  averages_follow_first_run (fst (update mat s)).
Proof.
  intros I. destruct (update mat s) as [s' [e|out]] eqn:H; cbn [fst].
  - apply presence_raises in H.
    destruct H as [[_ ->]|(fft_norm & _ & W)]; [exact I|].
    destruct (initialize_averages_sets fft_norm s I) as [F S].
    destruct (written_prefix_config _ _ W) as [_ F'].
    unfold averages_follow_first_run. rewrite F', F.
    exact (written_prefix_sets _ _ W S).
  - apply presence_returns in H.
    destruct H as (fft_norm & slow & fast & slow_peek & slow' & fast'
                   & slow_peek' & data & top & data_peek & top_peek
                   & _ & (_ & _ & _ & ->) & _).
    destruct (initialize_averages_sets fft_norm s I) as [F S].
    unfold averages_follow_first_run. read_attrs. rewrite F.
    repeat split; discriminate.
Qed.

Lemma reachable_averages (s : PresenceAntiPeekingAlgo) :
  live s -> averages_follow_first_run s.
Proof.
  induction 1 as [n c s H|s mat _ IH].
  - apply init_returns in H.
    destruct H as (_ & _ & _ & F & _ & _ & A & B & C).
    unfold averages_follow_first_run. rewrite F. auto.
  - now apply presence_averages.
Qed.

(** On every object that a program can hold, the three averages are unset
    and both statuses false as long as [first_run] is true, and the three
    averages are set once it is false. *)
Theorem averages_set_after_first_frame (s : PresenceAntiPeekingAlgo) :
  live s ->
  (first_run s = true ->
   slow_avg s = None /\ fast_avg s = None /\ slow_peek_avg s = None /\
   presence_status s = false /\ peeking_status s = false) /\
  (first_run s = false ->
   exists slow fast slow_peek,
     slow_avg s = Some slow /\ fast_avg s = Some fast /\
     slow_peek_avg s = Some slow_peek).
Proof.
  intros L. pose proof (reachable_averages s L) as A.
  unfold averages_follow_first_run in A. split; intros F; rewrite F in A.
  - destruct A as (A & B & C).
    destruct (reachable_fresh s L F) as [P K]. auto.
  - destruct A as (A & B & C).
    destruct (slow_avg s) as [slow|]; [|now elim A].
    destruct (fast_avg s) as [fast|]; [|now elim B].
    destruct (slow_peek_avg s) as [slow_peek|]; [|now elim C].
    exists slow, fast, slow_peek. auto.
Qed.

Lemma binop_error (f : float -> float -> float) (xs ys : list float)
  (e : exn) :
  np.binop f xs ys = inl e -> e = ValueError.
Proof.
  pose proof (binop_shape f xs ys) as B.
  destruct (broadcast_length _ _); intros H.
  - destruct B as (zs & E & _). rewrite E in H. discriminate H.
  - rewrite B in H. now injection H.
Qed.

Lemma max_error (xs : list float) (e : exn) :
  np.max xs = inl e -> e = ValueError.
Proof. destruct xs; intros H; [now injection H|discriminate H]. Qed.

Lemma presence_sensing_error (a_slow a_med a_fast : float)
  (fft_norm : list float) (s s' : PresenceAntiPeekingAlgo) (e : exn) :
  slow_avg s <> None -> fast_avg s <> None ->
  presence_sensing a_slow a_med a_fast fft_norm s = (s', inl e) ->
  e = ValueError.
Proof.
  intros A B. rewrite presence_sensing_run.
  destruct (slow_avg s); [|now elim A].
  destruct (ema _ _ _) eqn:E1.
  { intros H. injection H as _ <-. exact (binop_error _ _ _ _ E1). }
  destruct (fast_avg s); [|now elim B].
  destruct (ema _ _ a_fast) eqn:E2.
  { intros H. injection H as _ <-. exact (binop_error _ _ _ _ E2). }
  destruct (np.subtract _ _) eqn:E3.
  { intros H. injection H as _ <-. exact (binop_error _ _ _ _ E3). }
  destruct (np.max _) eqn:E4; [|discriminate].
  intros H. injection H as _ <-. exact (max_error _ _ E4).
Qed.

Lemma peeking_sensing_error (a_slow a_med : float)
  (fft_norm : list float) (s s' : PresenceAntiPeekingAlgo) (e : exn) :
  slow_peek_avg s <> None -> fast_avg s <> None ->
  peeking_sensing a_slow a_med fft_norm s = (s', inl e) ->
  e = ValueError.
Proof.
  intros A B. rewrite peeking_sensing_run.
  destruct (slow_peek_avg s); [|now elim A].
  destruct (ema _ _ _) eqn:E1.
  { intros H. injection H as _ <-. exact (binop_error _ _ _ _ E1). }
  destruct (fast_avg s); [|now elim B].
  destruct (np.subtract _ _) eqn:E3.
  { intros H. injection H as _ <-. exact (binop_error _ _ _ _ E3). }
  destruct (np.max _) eqn:E4; [|discriminate].
  intros H. injection H as _ <-. exact (max_error _ _ E4).
Qed.

(** The exceptions of the update.  On an object that a program can hold,
    the update raises what the FFT helper raises, an [OverflowError] when
    the number of chirps has no float, or a [ValueError] (arrays of
    different lengths, or an empty window): it never finds an average
    unset. *)
Theorem presence_raises_only (mat : ndarray2 float)
  (s s' : PresenceAntiPeekingAlgo) (e : exn) :
  live s -> update mat s = (s', inl e) ->
  fft_spectrum mat (range_window s) = inl e \/
  (e = OverflowError /\
   np.float_of_int (num_chirps_per_frame s) = inl OverflowError) \/
  e = ValueError.
Proof.
  intros L H. pose proof (reachable_averages s L) as I.
  rewrite presence_run, frame_spectrum_run in H. cbn [snd] in H.
  destruct (fft_spectrum mat (range_window s)) as [e0|range_fft];
    cbn [rbind] in H.
  { injection H as _ <-. now left. }
  unfold np.divide, rbind, ok in H.
  destruct (np.float_of_int (num_chirps_per_frame s)) as [e0|c] eqn:C.
  { injection H as _ <-. right; left.
    unfold np.float_of_int, throw, ok in C.
    destruct (binary_normalize _ _ _ _ _); try discriminate C.
    injection C as <-. auto. }
  right; right. cbv zeta in H.
  match type of H with
  | context [initialize_averages ?f s] =>
      destruct (initialize_averages_sets f s I) as (_ & A & B & C');
      set (s1 := fst (initialize_averages f s)) in *
  end.
  destruct (presence_sensing _ _ _ _ s1) as [s2 [e1|u]] eqn:P.
  { injection H as _ <-. exact (presence_sensing_error _ _ _ _ _ _ _ A B P). }
  apply presence_sensing_returns in P.
  destruct P as (slow & fast & slow' & fast' & data & top & P).
  destruct P as (_ & _ & _ & _ & _ & _ & ->).
  destruct (peeking_sensing _ _ _ _) as [s3 [e1|u']] eqn:Q; [|discriminate H].
  injection H as _ <-.
  apply (peeking_sensing_error _ _ _ _ _ _) in Q; read_attrs;
    [assumption|assumption|discriminate].
Qed.

(** ** Arrays of one length *)

Lemma binop_same_length (f : float -> float -> float) (xs ys : list float) :
  length xs = length ys -> np.binop f xs ys = inr (np.zip_with f xs ys).
Proof.
  intros L. unfold np.binop. now rewrite L, Nat.eqb_refl.
Qed.

Lemma ema_same_length (avg fft_norm : list float) (alpha : float) :
  length avg = length fft_norm ->
  exists avg',
    ema avg fft_norm alpha = inr avg' /\
    avg' = np.zip_with PrimFloat.add (np.scale avg (1 - alpha)%float)
             (np.scale fft_norm alpha) /\
    length avg' = length fft_norm.
Proof.
  intros L. eexists. split; [|split; [reflexivity|]].
  - unfold ema, np.add. apply binop_same_length.
    now rewrite !scale_length.
  - rewrite zip_with_length; rewrite !scale_length; auto.
Qed.

Lemma slice_length_inside {A : Type} (xs : list A) (lo hi : Z) :
  0 <= lo <= hi -> hi <= Z.of_nat (length xs) ->
  length (np.slice xs lo hi) = Z.to_nat (hi - lo).
Proof.
  intros B B'. unfold np.slice, np.slice_index.
  destruct (Z.ltb_spec lo 0); [lia|]. destruct (Z.ltb_spec hi 0); [lia|].
  rewrite !Z.min_l by lia. rewrite length_firstn, length_skipn. lia.
Qed.

Lemma max_returns (xs : list float) :
  (0 < length xs)%nat -> exists top, np.max xs = inr top.
Proof.
  destruct xs as [|x xs]; cbn [length]; [lia|]. intros _. eexists. reflexivity.
Qed.

(** The bounds of the two windows, for at least two samples per chirp. *)
Lemma window_bounds (n : Z) :
  2 <= n -> 0 <= n / 8 /\ n / 8 < n / 2 /\ n / 2 < n.
Proof.
  intros N.
  pose proof (Z.div_mod n 8 ltac:(lia)).
  pose proof (Z.mod_pos_bound n 8 ltac:(lia)).
  pose proof (Z.div_mod n 2 ltac:(lia)).
  pose proof (Z.mod_pos_bound n 2 ltac:(lia)). lia.
Qed.

(** The averages after line 76, when those set before had the length of
    the spectrum. *)
Lemma initialize_averages_sized (fft_norm : list float)
  (s : PresenceAntiPeekingAlgo) :
  averages_follow_first_run s -> sized (length fft_norm) s ->
  exists slow fast slow_peek,
    let s1 := fst (initialize_averages fft_norm s) in
    slow_avg s1 = Some slow /\ fast_avg s1 = Some fast /\
    slow_peek_avg s1 = Some slow_peek /\
    length slow = length fft_norm /\ length fast = length fft_norm /\
    length slow_peek = length fft_norm.
Proof.
  unfold averages_follow_first_run, sized.
  rewrite initialize_averages_run.
  destruct (first_run s); cbn [fst]; read_attrs.
  - intros _ _. exists fft_norm, fft_norm, fft_norm. auto 7.
  - intros (A & B & C) (SA & SB & SC).
    destruct (slow_avg s) as [slow|]; [|now elim A].
    destruct (fast_avg s) as [fast|]; [|now elim B].
    destruct (slow_peek_avg s) as [slow_peek|]; [|now elim C].
    exists slow, fast, slow_peek. auto 7.
Qed.

(** The update of an object whose arrays have one length. *)
Lemma sized_update_returns (mat : ndarray2 float)
  (s : PresenceAntiPeekingAlgo) (fft_norm : list float) :
  live s ->
  2 <= num_samples_per_chirp s ->
  spectrum mat s = (s, inr fft_norm) ->
  Z.of_nat (length fft_norm) = num_samples_per_chirp s ->
  sized (length fft_norm) s ->
  exists s' out,
    update mat s = (s', inr out) /\
    sized (length fft_norm) s' /\ first_run s' = false.
Proof.
  intros L N Hs K Z.
  destruct (reachable_configured s L) as (Ds & De & Ps & Pe & _).
  destruct (window_bounds _ N) as (B1 & B2 & B3).
  destruct (initialize_averages_sized fft_norm s (reachable_averages s L) Z)
    as (slow & fast & slow_peek & A).
  cbv zeta in A. destruct A as (A1 & A2 & A3 & L1 & L2 & L3).
  destruct (initialize_averages_sets fft_norm s (reachable_averages s L))
    as (F1 & _).
  destruct (initialize_averages_config fft_norm s) as (Hcfg & Hpres & Hpeek).
  destruct Hcfg as (_ & _ & Hds & Hde & Hps & Hpe & _).
  rewrite presence_run, Hs. cbn [snd]. cbv zeta.
  set (s1 := fst (initialize_averages fft_norm s)) in *.
  rewrite presence_sensing_run, A1, A2.
  destruct (ema_same_length slow fft_norm
              (if negb (presence_status s1)
               then alpha_med s else alpha_slow s) L1)
    as (slow' & -> & _ & L1').
  destruct (ema_same_length fast fft_norm (alpha_fast s) L2)
    as (fast' & -> & _ & L2').
  unfold np.subtract. rewrite (binop_same_length _ fast' slow') by congruence.
  set (data := np.zip_with PrimFloat.sub fast' slow').
  assert (Ld : length data = length fft_norm).
  { unfold data. rewrite zip_with_length; congruence. }
  destruct (max_returns (np.slice data (detect_start_sample s1)
                           (detect_end_sample s1))) as (top & ->).
  { rewrite slice_length_inside; rewrite ?Hds, ?Hde, ?Ds, ?De, ?Ld; lia. }
  rewrite peeking_sensing_run. read_attrs. rewrite A3.
  destruct (ema_same_length slow_peek fft_norm
              (if negb (peeking_status s1)
               then alpha_med s else alpha_slow s) L3)
    as (slow_peek' & -> & _ & L3').
  unfold np.subtract.
  rewrite (binop_same_length _ fast' slow_peek') by congruence.
  set (data_peek := np.zip_with PrimFloat.sub fast' slow_peek').
  assert (Lp : length data_peek = length fft_norm).
  { unfold data_peek. rewrite zip_with_length; congruence. }
  destruct (max_returns (np.slice data_peek (peek_start_sample s1)
                           (peek_end_sample s1))) as (top_peek & ->).
  { rewrite slice_length_inside; rewrite ?Hps, ?Hpe, ?Ps, ?Pe, ?Lp; lia. }
  eexists. eexists. split; [reflexivity|].
  unfold sized. read_attrs. split; [|exact F1].
  repeat split; intros v E; injection E as <-; assumption.
Qed.

(** When the update cannot raise.  On an object with at least two samples
    per chirp whose averages, if set, have one entry per sample, a frame
    whose normalised spectrum has one entry per sample is processed without
    exception, and leaves averages of that same length. *)
Theorem presence_returns_when_sized (mat : ndarray2 float)
  (s : PresenceAntiPeekingAlgo) (fft_norm : list float) :
  live s ->
  2 <= num_samples_per_chirp s ->
  spectrum mat s = (s, inr fft_norm) ->
  Z.of_nat (length fft_norm) = num_samples_per_chirp s ->
  sized (length fft_norm) s ->
  exists s' out,
    update mat s = (s', inr out) /\
    sized (length fft_norm) s' /\ first_run s' = false.
Proof. exact (sized_update_returns mat s fft_norm). Qed.

(** ** Which bins decide *)

Lemma not_nan_ordered (xs : list float) : ~ In nan xs -> Forall ordered xs.
Proof.
  intros N. apply Forall_forall. intros x I. apply ordered_iff.
  intros ->. exact (N I).
Qed.

Lemma threshold_test (t : float) (xs : list float) (top : float) :
  ordered t -> np.max xs = inr top ->
  (~ In nan xs -> (t <? top)%float = existsb (fun x => t <? x)%float xs) /\
  (In nan xs -> (t <? top)%float = false).
Proof.
  intros Ot H. split; intros N.
  - exact (proj2 (max_exceeds t xs top Ot (not_nan_ordered xs N) H)).
  - rewrite (max_nan xs N) in H. injection H as <-. apply ltb_nan_r.
Qed.

(** What a status says about the bins.  After an update that returns, the
    presence status is true exactly when some bin of the detect window has
    its differential above 0.0007, provided no bin of the window is a NaN;
    a NaN in the window makes the status false.  The same holds of the
    peeking status, the peek window and 0.0006. *)
Theorem status_iff_a_bin_exceeds (mat : ndarray2 float)
  (s s' : PresenceAntiPeekingAlgo) (out : bool * bool) :
  live s -> update mat s = (s', inr out) ->
  exists fast slow slow_peek data data_peek,
    fast_avg s' = Some fast /\ slow_avg s' = Some slow /\
    slow_peek_avg s' = Some slow_peek /\
    np.subtract fast slow = inr data /\
    np.subtract fast slow_peek = inr data_peek /\
    (let window :=
       np.slice data (detect_start_sample s) (detect_end_sample s) in
     (~ In nan window ->
      fst out = existsb (fun x => 0.0007 <? x)%float window) /\
     (In nan window -> fst out = false)) /\
    (let window :=
       np.slice data_peek (peek_start_sample s) (peek_end_sample s) in
     (~ In nan window ->
      snd out = existsb (fun x => 0.0006 <? x)%float window) /\
     (In nan window -> snd out = false)).
Proof.
  intros L H. apply reachable_configured in L.
  destruct L as (_ & _ & _ & _ & Tp & Tk & _).
  apply presence_returns in H.
  destruct H as (fft_norm & slow & fast & slow_peek & slow' & fast'
                 & slow_peek' & data & top & data_peek & top_peek
                 & _ & (_ & _ & _ & ->) & _ & _ & Ed & Et & _ & Edp
                 & Etp & ->).
  rewrite Tp, Tk.
  exists fast', slow', slow_peek', data, data_peek. read_attrs.
  repeat (split; [solve [auto]|]).
  split; cbv zeta; apply threshold_test; auto;
    unfold ordered; vm_compute; discriminate.
Qed.

Lemma nth_error_zip_with (f : float -> float -> float) (xs ys : list float)
  (i : nat) :
  nth_error (np.zip_with f xs ys) i =
  match nth_error xs i, nth_error ys i with
  | Some x, Some y => Some (f x y)
  | _, _ => None
  end.
Proof.
  revert ys i; induction xs as [|x xs IH]; intros [|y ys] [|i]; cbn;
    try reflexivity.
  - now destruct (nth_error xs i).
  - apply IH.
Qed.

Lemma nth_error_scale (xs : list float) (c : float) (i : nat) :
  nth_error (np.scale xs c) i
  = option_map (fun x => (x * c)%float) (nth_error xs i).
Proof. unfold np.scale. apply nth_error_map. Qed.

Lemma nth_error_defined {A : Type} (xs ys : list A) (i : nat) (x : A) :
  length xs = length ys -> nth_error xs i = Some x ->
  exists y, nth_error ys i = Some y.
Proof.
  intros L H. destruct (nth_error ys i) as [y|] eqn:E; [now exists y|].
  apply nth_error_None in E.
  assert (nth_error xs i <> None) as N by congruence.
  apply nth_error_Some in N. lia.
Qed.

(** A NaN in either argument of an average is a NaN in the average. *)
Lemma ema_nan (avg fft_norm : list float) (alpha : float)
  (avg' : list float) (i : nat) :
  length avg = length fft_norm ->
  ema avg fft_norm alpha = inr avg' ->
  nth_error avg i = Some nan \/ nth_error fft_norm i = Some nan ->
  nth_error avg' i = Some nan.
Proof.
  intros L E N.
  destruct (ema_same_length avg fft_norm alpha L) as (z & E' & -> & _).
  rewrite E' in E. injection E as <-.
  rewrite nth_error_zip_with, !nth_error_scale.
  destruct N as [N|N].
  - destruct (nth_error_defined _ _ _ _ L N) as (y & Y).
    rewrite N, Y. cbn. now rewrite mul_nan_l, add_nan_l.
  - destruct (nth_error_defined _ _ _ _ (eq_sym L) N) as (x & X).
    rewrite N, X. cbn. now rewrite mul_nan_l, add_nan_r.
Qed.

Lemma subtract_nan (fast slow data : list float) (i : nat) :
  length fast = length slow ->
  np.subtract fast slow = inr data ->
  nth_error fast i = Some nan ->
  nth_error data i = Some nan.
Proof.
  intros L E N. unfold np.subtract in E.
  rewrite (binop_same_length _ _ _ L) in E. injection E as <-.
  rewrite nth_error_zip_with.
  destruct (nth_error_defined _ _ _ _ L N) as (y & Y).
  rewrite N, Y. now rewrite sub_nan_l.
Qed.

(** An entry between the bounds of a slice is in the slice. *)
Lemma slice_In {A : Type} (xs : list A) (lo hi : Z) (i : nat) (x : A) :
  0 <= lo -> lo <= Z.of_nat i < hi -> nth_error xs i = Some x ->
  In x (np.slice xs lo hi).
Proof.
  intros Hlo B N.
  assert (i < length xs)%nat as I.
  { apply nth_error_Some. congruence. }
  unfold np.slice, np.slice_index.
  destruct (Z.ltb_spec lo 0); [lia|]. destruct (Z.ltb_spec hi 0); [lia|].
  set (len := Z.of_nat (length xs)).
  rewrite (Z.min_l lo len) by lia.
  apply (nth_error_In _ (i - Z.to_nat lo)).
  rewrite nth_error_firstn, nth_error_skipn.
  destruct (Nat.ltb_spec (i - Z.to_nat lo)
              (Z.to_nat (Z.min hi len - lo))); [|lia].
  rewrite <- N. f_equal. lia.
Qed.

(** A NaN bin through one update. *)
Lemma nan_bin_kept (mat : ndarray2 float)
  (s s' : PresenceAntiPeekingAlgo) (out : bool * bool)
  (fft_norm : list float) (i : nat) :
  live s ->
  0 <= num_samples_per_chirp s ->
  spectrum mat s = (s, inr fft_norm) ->
  sized (length fft_norm) s ->
  nth_error fft_norm i = Some nan \/
  (exists fast, fast_avg s = Some fast /\ nth_error fast i = Some nan) ->
  update mat s = (s', inr out) ->
  let n := num_samples_per_chirp s in
  (exists fast', fast_avg s' = Some fast' /\ nth_error fast' i = Some nan) /\
  (n / 8 <= Z.of_nat i < n / 2 -> fst out = false) /\
  (n / 2 <= Z.of_nat i < n -> snd out = false).
Proof.
  intros L N Hs Z P H n.
  destruct (reachable_configured s L) as (Ds & De & Ps & Pe & Tp & Tk & _).
  pose proof (reachable_averages s L) as I.
  destruct (initialize_averages_sized fft_norm s I Z)
    as (slow0 & fast0 & peek0 & A).
  cbv zeta in A. destruct A as (A1 & A2 & A3 & L1 & L2 & L3).
  apply presence_returns in H.
  destruct H as (f & slow & fast & slow_peek & slow' & fast'
                 & slow_peek' & data & top & data_peek & top_peek
                 & Hs' & (B1 & B2 & B3 & ->) & Es & Ef & Ed & Et & Ep & Edp
                 & Etp & ->).
  rewrite Hs in Hs'. injection Hs' as <-.
  rewrite A1 in B1. rewrite A2 in B2. rewrite A3 in B3.
  injection B1 as <-. injection B2 as <-. injection B3 as <-.
  assert (P0 : nth_error fast0 i = Some nan \/ nth_error fft_norm i = Some nan).
  { destruct P as [P|(fast & Fa & P)]; [now right|left].
    rewrite initialize_averages_run in A2.
    unfold averages_follow_first_run in I.
    destruct (first_run s); read_attrs.
    - destruct I as (_ & I & _). congruence.
    - congruence. }
  pose proof (ema_nan fast0 fft_norm _ fast' i L2 Ef P0) as Nf.
  destruct (ema_same_length slow0 fft_norm
              (if negb (presence_status s)
               then alpha_med s else alpha_slow s) L1)
    as (z1 & E1 & _ & L1').
  rewrite E1 in Es. injection Es as ->.
  destruct (ema_same_length fast0 fft_norm (alpha_fast s) L2)
    as (z2 & E2 & _ & L2').
  rewrite E2 in Ef. injection Ef as ->.
  destruct (ema_same_length peek0 fft_norm
              (if negb (peeking_status s)
               then alpha_med s else alpha_slow s) L3)
    as (z3 & E3 & _ & L3').
  rewrite E3 in Ep. injection Ep as ->.
  assert (Lfs : length fast' = length slow') by congruence.
  assert (Lfp : length fast' = length slow_peek') by congruence.
  pose proof (subtract_nan fast' slow' data i Lfs Ed Nf) as Nd.
  pose proof (subtract_nan fast' slow_peek' data_peek i Lfp Edp Nf) as Np.
  read_attrs. split; [now exists fast'|].
  assert (B : 0 <= n / 8 /\ 0 <= n / 2).
  { split; apply Z.div_pos; lia. }
  rewrite Ds, De in Et. rewrite Ps, Pe in Etp. fold n in Et, Etp.
  split; intros W.
  - rewrite (max_nan _ (slice_In data _ _ i nan (proj1 B) W Nd)) in Et.
    injection Et as <-. apply ltb_nan_r.
  - rewrite (max_nan _ (slice_In data_peek _ _ i nan (proj2 B) W Np)) in Etp.
    injection Etp as <-. apply ltb_nan_r.
Qed.

(** A NaN is kept.  When bin [i] of the normalised spectrum or of
    [fast_avg] is a NaN, all arrays having one length, an update that
    returns leaves bin [i] of [fast_avg] a NaN, and reports no presence if
    [i] is in the detect window and no peeking if [i] is in the peek
    window. *)
Theorem nan_bin_silences (mat : ndarray2 float)
  (s s' : PresenceAntiPeekingAlgo) (out : bool * bool)
  (fft_norm : list float) (i : nat) :
  live s ->
  0 <= num_samples_per_chirp s ->
  spectrum mat s = (s, inr fft_norm) ->
  sized (length fft_norm) s ->
  nth_error fft_norm i = Some nan \/
  (exists fast, fast_avg s = Some fast /\ nth_error fast i = Some nan) ->
  update mat s = (s', inr out) ->
  let n := num_samples_per_chirp s in
  (exists fast', fast_avg s' = Some fast' /\ nth_error fast' i = Some nan) /\
  (n / 8 <= Z.of_nat i < n / 2 -> fst out = false) /\
  (n / 2 <= Z.of_nat i < n -> snd out = false).
Proof. exact (nan_bin_kept mat s s' out fft_norm i). Qed.

(** ** The two windows side by side *)

Lemma firstn_plus {A : Type} (m k : nat) (xs : list A) :
  firstn (m + k) xs = firstn m xs ++ firstn k (skipn m xs).
Proof.
  revert xs; induction m as [|m IH]; intros [|x xs]; cbn;
    try reflexivity.
  - now rewrite firstn_nil.
  - now rewrite IH.
Qed.

Lemma slice_inside {A : Type} (xs : list A) (lo hi : Z) :
  0 <= lo <= hi -> hi <= Z.of_nat (length xs) ->
  np.slice xs lo hi = firstn (Z.to_nat (hi - lo)) (skipn (Z.to_nat lo) xs).
Proof.
  intros B B'. unfold np.slice, np.slice_index.
  destruct (Z.ltb_spec lo 0); [lia|]. destruct (Z.ltb_spec hi 0); [lia|].
  now rewrite !Z.min_l by lia.
Qed.

(** Two slices that meet make one. *)
Lemma slice_app {A : Type} (xs : list A) (a b c : Z) :
  0 <= a <= b -> b <= c -> c <= Z.of_nat (length xs) ->
  np.slice xs a b ++ np.slice xs b c = np.slice xs a c.
Proof.
  intros B1 B2 B3. rewrite !slice_inside by lia.
  replace (Z.to_nat (c - a)) with (Z.to_nat (b - a) + Z.to_nat (c - b))%nat
    by lia.
  rewrite firstn_plus, skipn_skipn. do 3 f_equal. lia.
Qed.

(** The windows partition the bins from [n/8] on.  For an array with one
    entry per sample, the bins below [n/8], the detect window and the peek
    window follow one another without gap or overlap and make up the whole
    array; the detect window has [n/2 - n/8] bins and the peek window
    [n - n/2]. *)
Theorem windows_partition (s : PresenceAntiPeekingAlgo) (data : list float) :
  live s ->
  Z.of_nat (length data) = num_samples_per_chirp s ->
  let n := num_samples_per_chirp s in
  let detect := np.slice data (detect_start_sample s) (detect_end_sample s) in
  let peek := np.slice data (peek_start_sample s) (peek_end_sample s) in
  firstn (Z.to_nat (n / 8)) data ++ detect ++ peek = data /\
  length detect = Z.to_nat (n / 2 - n / 8) /\
  length peek = Z.to_nat (n - n / 2).
Proof.
  intros L Len n detect peek.
  destruct (reachable_configured s L) as (Ds & De & Ps & Pe & _).
  unfold detect, peek. rewrite Ds, De, Ps, Pe. fold n. fold n in Len.
  assert (B : 0 <= n / 8 /\ n / 8 <= n / 2 /\ n / 2 <= n).
  { pose proof (Z.div_mod n 8 ltac:(lia)).
    pose proof (Z.mod_pos_bound n 8 ltac:(lia)).
    pose proof (Z.div_mod n 2 ltac:(lia)).
    pose proof (Z.mod_pos_bound n 2 ltac:(lia)). lia. }
  split; [|split].
  - rewrite slice_app by lia. rewrite slice_inside by lia.
    rewrite (firstn_all2 (skipn _ data)) by (rewrite length_skipn; lia).
    apply firstn_skipn.
  - apply slice_length_inside; lia.
  - apply slice_length_inside; lia.
Qed.

(** ** One frame after another *)

(** The status that an update returns picks the coefficient of the next
    one: after [(presence, peeking)], the next update that returns has
    written [slow_avg] with 0.001 if [presence] was true and with 0.05 if
    not, and [slow_peek_avg] in the same way by [peeking]. *)
Theorem next_coefficient_follows_status (mat mat' : ndarray2 float)
  (s s1 s2 : PresenceAntiPeekingAlgo) (out out' : bool * bool) :
  live s ->
  update mat s = (s1, inr out) ->
  update mat' s1 = (s2, inr out') ->
  exists fft_norm slow slow_peek slow' slow_peek',
    spectrum mat' s1 = (s1, inr fft_norm) /\
    slow_avg s1 = Some slow /\ slow_peek_avg s1 = Some slow_peek /\
    ema slow fft_norm (if fst out then 0.001 else 0.05)%float = inr slow' /\
    slow_avg s2 = Some slow' /\
    ema slow_peek fft_norm (if snd out then 0.001 else 0.05)%float
      = inr slow_peek' /\
    slow_peek_avg s2 = Some slow_peek'.
Proof.
  intros L H1 H2.
  assert (L1 : live s1).
  { replace s1 with (fst (update mat s)) by now rewrite H1.
    now constructor. }
  destruct (reachable_configured s1 L1)
    as (_ & _ & _ & _ & _ & _ & As & Am & _).
  apply presence_returns in H1.
  destruct H1 as (f & slow & fast & slow_peek & slow' & fast'
                  & slow_peek' & data & top & data_peek & top_peek
                  & _ & (_ & _ & _ & E1) & _ & _ & _ & _ & _ & _ & _ & ->).
  assert (F : first_run s1 = false).
  { pose proof (reachable_averages s1 L1) as I.
    unfold averages_follow_first_run in I.
    destruct (first_run s1); [|reflexivity].
    destruct I as (I & _). rewrite E1 in I. discriminate I. }
  assert (Sp : presence_status s1 = (threshold_presence s <? top)%float)
    by now rewrite E1.
  assert (Sk : peeking_status s1 = (threshold_peeking s <? top_peek)%float)
    by now rewrite E1.
  apply presence_returns in H2.
  destruct H2 as (f2 & slow2 & fast2 & slow_peek2 & slow2' & fast2'
                  & slow_peek2' & data2 & top2 & data_peek2 & top_peek2
                  & Hs & (B1 & _ & B3 & ->) & Es & _ & _ & _ & Ep & _).
  rewrite initialize_averages_run, F in B1, B3. cbn [fst] in B1, B3.
  rewrite As, Am, Sp in Es. rewrite As, Am, Sk in Ep.
  exists f2, slow2, slow_peek2, slow2', slow_peek2'. cbn [fst snd].
  read_attrs. repeat split; auto.
  - destruct (threshold_presence s <? top)%float; exact Es.
  - destruct (threshold_peeking s <? top_peek)%float; exact Ep.
Qed.

(** ** The loop of the script *)

Local Abbreviation loop := (main_loop fft_spectrum hypot).
Local Abbreviation good := (good_reading fft_spectrum).

Lemma zip_with_overhang (f : float -> float -> float) (xs ys : list float) :
  length (np.zip_with f xs ys) = Nat.min (length xs) (length ys).
Proof.
  revert ys; induction xs as [|x xs IH]; intros [|y ys]; cbn; auto.
Qed.

(** The column sums of a rectangular matrix, one per column. *)
Lemma sum_axis0_length (m : ndarray2 float) :
  rectangular m -> length (np.sum_axis0 m) = ncols m.
Proof.
  unfold rectangular, np.sum_axis0.
  assert (G : forall rows acc,
             Forall (fun r : list float => length r = ncols m) rows ->
             length acc = ncols m ->
             length (fold_left (np.zip_with PrimFloat.add) rows acc)
             = ncols m).
  { induction rows0 as [|r rest IH]; intros acc F A; cbn; [exact A|].
    inversion_clear F as [|? ? R F']. apply IH; [exact F'|].
    rewrite zip_with_overhang, A, R. apply Nat.min_id. }
  intros R. apply G; [exact R|apply repeat_length].
Qed.

Lemma np_abs_rectangular (range_fft : ndarray2 complex) :
  rectangular range_fft -> rectangular (np_abs hypot range_fft).
Proof.
  unfold rectangular, np_abs. cbn [rows ncols]. intros R.
  apply Forall_map. eapply Forall_impl; [|exact R].
  intros row. cbn. now rewrite length_map.
Qed.

(** The normalised spectrum has one entry per column of the spectrum. *)
Lemma frame_spectrum_length (mat : ndarray2 float)
  (s : PresenceAntiPeekingAlgo) (range_fft : ndarray2 complex) (c : float) :
  fft_spectrum mat (range_window s) = inr range_fft ->
  rectangular range_fft ->
  np.float_of_int (num_chirps_per_frame s) = inr c ->
  exists fft_norm,
    spectrum mat s = (s, inr fft_norm) /\
    length fft_norm = ncols range_fft.
Proof.
  intros H R C. rewrite frame_spectrum_run, H. cbn [rbind].
  unfold np.divide, rbind, ok. rewrite C.
  eexists. split; [reflexivity|].
  rewrite length_map, sum_axis0_length by now apply np_abs_rectangular.
  reflexivity.
Qed.

(** One iteration on a good reading. *)
Lemma good_iteration (reading : result frame_contents)
  (algo : PresenceAntiPeekingAlgo) (k : nat) (c : float) :
  live algo ->
  2 <= num_samples_per_chirp algo ->
  Z.of_nat k = num_samples_per_chirp algo ->
  sized k algo ->
  np.float_of_int (num_chirps_per_frame algo) = inr c ->
  good (range_window algo) k reading ->
  exists mat fft_norm algo' status,
    rbind reading first_antenna = inr mat /\
    spectrum mat algo = (algo, inr fft_norm) /\
    length fft_norm = k /\
    update mat algo = (algo', inr status) /\
    live algo' /\ sized k algo' /\ same_config algo algo'.
Proof.
  intros L N K S C (contents & mat & range_fft & -> & M & H & R & <-).
  destruct (frame_spectrum_length mat algo range_fft c H R C)
    as (fft_norm & Hs & Len).
  rewrite <- Len in K, S. rewrite <- Len.
  destruct (sized_update_returns mat algo fft_norm L N Hs K S)
    as (algo' & status & U & S' & _).
  exists mat, fft_norm, algo', status. cbn [rbind].
  pose proof (presence_same_config mat algo) as Q.
  assert (L' : live (fst (update mat algo))) by now constructor.
  rewrite U in Q, L'. cbn [fst] in Q, L'.
  split; [exact M|]. split; [exact Hs|]. split; [reflexivity|].
  split; [exact U|]. split; [exact L'|]. split; [exact S'|exact Q].
Qed.

(** The loop over two runs of readings is the loop over the first and, if
    it was not left by an exception, the loop over the second from the
    object that the first left, with the pairs printed one after the
    other. *)
Theorem main_loop_app (device device' : list (result frame_contents))
  (algo : PresenceAntiPeekingAlgo) :
  loop (device ++ device') algo =
  let '(algo1, printed, r) := loop device algo in
  match r with
  | inl e => (algo1, printed, inl e)
  | inr _ =>
      let '(algo2, printed', r') := loop device' algo1 in
      (algo2, printed ++ printed', r')
  end.
Proof.
  revert algo; induction device as [|reading rest IH]; intros algo;
    cbn [main_loop app].
  - now destruct (loop device' algo) as [[algo2 printed'] r'].
  - destruct (rbind reading first_antenna) as [e|mat]; [reflexivity|].
    destruct (update mat algo) as [algo' [e|status]]; [reflexivity|].
    rewrite IH.
    destruct (loop rest algo') as [[algo1 printed] [e|u]]; [reflexivity|].
    now destruct (loop device' algo1) as [[algo2 printed'] r'].
Qed.

(** The loop prints one pair for each frame until an exception leaves it:
    as many pairs as readings when it ends normally, fewer when it ends
    with an exception; and the object it leaves is one a program can
    hold. *)
Theorem main_loop_prints_until_exception
  (device : list (result frame_contents))
  (algo algo' : PresenceAntiPeekingAlgo) (printed : list (bool * bool))
  (r : result unit) :
  live algo ->
  loop device algo = (algo', printed, r) ->
  live algo' /\
  match r with
  | inr _ => length printed = length device
  | inl _ => (length printed < length device)%nat
  end.
Proof.
  revert algo algo' printed r.
  induction device as [|reading rest IH]; intros algo algo' printed r L H;
    cbn [main_loop] in H.
  - injection H as <- <- <-. split; [exact L|reflexivity].
  - destruct (rbind reading first_antenna) as [e|mat].
    { injection H as <- <- <-. split; [exact L|cbn; lia]. }
    assert (L' : live (fst (update mat algo))) by now constructor.
    destruct (update mat algo) as [algo1 [e|status]]; cbn [fst] in L'.
    { injection H as <- <- <-. split; [exact L'|cbn; lia]. }
    destruct (loop rest algo1) as [[algo2 printed'] r'] eqn:E.
    injection H as <- <- <-.
    destruct (IH algo1 algo2 printed' r' L' E) as [L2 Len].
    split; [exact L2|]. destruct r'; cbn [length]; lia.
Qed.

Lemma same_config_good (algo algo' : PresenceAntiPeekingAlgo) (k : nat)
  (device : list (result frame_contents)) :
  same_config algo algo' ->
  Forall (good (range_window algo) k) device ->
  Forall (good (range_window algo') k) device.
Proof.
  intros Q. destruct Q as (_ & _ & _ & _ & _ & _ & _ & _ & _ & _ & _ & ->).
  auto.
Qed.

(** The loop on good readings. *)
Lemma good_loop (device : list (result frame_contents))
  (algo : PresenceAntiPeekingAlgo) (k : nat) (c : float) :
  live algo ->
  2 <= num_samples_per_chirp algo ->
  Z.of_nat k = num_samples_per_chirp algo ->
  sized k algo ->
  np.float_of_int (num_chirps_per_frame algo) = inr c ->
  Forall (good (range_window algo) k) device ->
  exists algo' printed,
    loop device algo = (algo', printed, ok tt) /\
    length printed = length device /\ sized k algo'.
Proof.
  revert algo; induction device as [|reading rest IH];
    intros algo L N K S C G; cbn [main_loop].
  - exists algo, []. auto.
  - inversion_clear G as [|? ? G1 G2].
    destruct (good_iteration reading algo k c L N K S C G1)
      as (mat & fft_norm & algo1 & status & M & _ & _ & U & L1 & S1 & Q).
    rewrite M, U.
    pose proof (same_config_good _ _ _ _ Q G2) as G2'.
    destruct Q as (Qn & Qc & _).
    destruct (IH algo1 L1 ltac:(congruence) ltac:(congruence) S1
                ltac:(congruence) G2')
      as (algo2 & printed & -> & Len & S2).
    exists algo2, (status :: printed). cbn [length]. auto.
Qed.

(** The loop runs to its end on good readings.  From an object with at
    least two samples per chirp, a number of chirps that has a float, and
    averages that are unset or have one entry per sample, the loop over
    readings that the FFT helper turns into spectra of one bin per sample
    raises nothing and prints one pair per reading. *)
Theorem main_loop_completes (device : list (result frame_contents))
  (algo : PresenceAntiPeekingAlgo) (k : nat) (c : float) :
  live algo ->
  2 <= num_samples_per_chirp algo ->
  Z.of_nat k = num_samples_per_chirp algo ->
  sized k algo ->
  np.float_of_int (num_chirps_per_frame algo) = inr c ->
  Forall (good (range_window algo) k) device ->
  exists algo' printed,
    loop device algo = (algo', printed, ok tt) /\
    length printed = length device /\ sized k algo'.
Proof. exact (good_loop device algo k c). Qed.

(** The script runs to its end.  When the window function returns 256
    coefficients and the FFT helper turns the first antenna of every
    reading into a spectrum of 256 bins, the script raises nothing and
    prints one pair per frame. *)
Theorem main_completes (device : list (result frame_contents))
  (w : list float) :
  signal_blackmanharris 256 = inr w ->
  length w = 256%nat ->
  Forall (good (mk_ndarray2 (length w) [w]) 256) device ->
  exists printed,
    main signal_blackmanharris signal_windows_blackmanharris
      fft_spectrum hypot device = (printed, ok tt) /\
    length printed = length device.
Proof.
  intros W Len G. unfold main.
  destruct (new 256 32) as [e|algo] eqn:I.
  { exfalso. unfold __init__, rbind, np.reshape_1 in I.
    rewrite W, Len in I. discriminate I. }
  assert (R : range_window algo = mk_ndarray2 (length w) [w]).
  { unfold __init__, rbind, np.reshape_1 in I. rewrite W, Len in I.
    cbn in I. injection I as <-. cbn. now rewrite Len. }
  destruct (init_returns 256 32 algo I)
    as (_ & N & C & _ & _ & _ & A1 & A2 & A3).
  assert (S : sized 256 algo).
  { unfold sized. rewrite A1, A2, A3. repeat split; discriminate. }
  rewrite <- R in G.
  destruct (good_loop device algo 256 32%float
              (reachable_init _ _ _ _ 256 32 algo I))
    as (algo' & printed & E & P & _);
    rewrite ?N, ?C; try reflexivity; try assumption; [lia|].
  rewrite E. exists printed. auto.
Qed.

(** A NaN silences the rest of the session.  Once bin [i] of [fast_avg] is
    a NaN, the loop over good readings prints no presence on any later
    frame if [i] is in the detect window, and no peeking if [i] is in the
    peek window. *)
Theorem main_loop_nan_silences (device : list (result frame_contents))
  (algo : PresenceAntiPeekingAlgo) (k : nat) (c : float)
  (fast : list float) (i : nat) :
  live algo ->
  2 <= num_samples_per_chirp algo ->
  Z.of_nat k = num_samples_per_chirp algo ->
  sized k algo ->
  np.float_of_int (num_chirps_per_frame algo) = inr c ->
  Forall (good (range_window algo) k) device ->
  fast_avg algo = Some fast -> nth_error fast i = Some nan ->
  let n := num_samples_per_chirp algo in
  exists algo' printed,
    loop device algo = (algo', printed, ok tt) /\
    length printed = length device /\
    (n / 8 <= Z.of_nat i < n / 2 ->
     Forall (fun status => fst status = false) printed) /\
    (n / 2 <= Z.of_nat i < n ->
     Forall (fun status => snd status = false) printed).
Proof.
  revert algo fast; induction device as [|reading rest IH];
    intros algo fast L N K S C G F P n; cbn [main_loop].
  - exists algo, []. auto.
  - inversion_clear G as [|? ? G1 G2].
    destruct (good_iteration reading algo k c L N K S C G1)
      as (mat & fft_norm & algo1 & status & M & Hs & Len & U & L1 & S1 & Q).
    rewrite M, U.
    pose proof (same_config_good _ _ _ _ Q G2) as G2'.
    rewrite <- Len in S.
    destruct (nan_bin_kept mat algo algo1 status fft_norm i L
                ltac:(lia) Hs S
                (or_intror (ex_intro _ fast (conj F P))) U)
      as ((fast1 & F1 & P1) & Wd & Wp).
    destruct Q as (Qn & Qc & _).
    destruct (IH algo1 fast1 L1 ltac:(congruence) ltac:(congruence) S1
                ltac:(congruence) G2' F1 P1)
      as (algo2 & printed & -> & Lp & Vd & Vp).
    rewrite Qn in Vd, Vp. fold n in Vd, Vp, Wd, Wp.
    exists algo2, (status :: printed). cbn [length].
    split; [reflexivity|]. split; [now rewrite Lp|].
    split; intros W; constructor; auto.
Qed.

(** ** Construction, read backwards *)

(** An object exists only if a window function returned its window.  When
    construction returns, the window function, or the second one when the
    first name is absent, returned an array [w] with
    [num_samples_per_chirp] entries (or the size given was [-1], which
    [reshape] reads as "any"), and [range_window] is the matrix with [w] as
    its one row. *)
Theorem init_only_with_window (n c : Z) (s : PresenceAntiPeekingAlgo) :
  new n c = inr s ->
  exists w,
    (signal_blackmanharris n = inr w \/
     (signal_blackmanharris n = inl AttributeError /\
      signal_windows_blackmanharris n = inr w)) /\
    (n = -1 \/ n = Z.of_nat (length w)) /\
    range_window s = mk_ndarray2 (length w) [w].
Proof.
  assert (R : forall w r, np.reshape_1 w n = inr r ->
                (n = -1 \/ n = Z.of_nat (length w)) /\
                r = mk_ndarray2 (length w) [w]).
  { intros w r. unfold np.reshape_1, ok, throw.
    destruct ((n =? -1) || (n =? Z.of_nat (length w))) eqn:E;
      [|discriminate].
    intros H. injection H as <-. split; [|reflexivity].
    apply orb_true_iff in E. destruct E as [E|E]; apply Z.eqb_eq in E; auto. }
  unfold __init__, rbind, ok. intros H.
  destruct (signal_blackmanharris n) as [e|w] eqn:W.
  - destruct e; cbn in H; try discriminate H.
    destruct (signal_windows_blackmanharris n) as [e|w] eqn:W';
      [discriminate H|].
    destruct (np.reshape_1 w n) as [e|r] eqn:Rw; [discriminate H|].
    injection H as <-. destruct (R w r Rw) as [A ->].
    exists w. cbn. auto.
  - destruct (np.reshape_1 w n) as [e|r] eqn:Rw.
    + exfalso. unfold np.reshape_1, ok, throw in Rw.
      destruct ((n =? -1) || (n =? Z.of_nat (length w))); [discriminate Rw|].
      injection Rw as <-. discriminate H.
    + injection H as <-. destruct (R w r Rw) as [A ->].
      exists w. cbn. auto.
Qed.

(** ** No chirps per frame *)

Lemma div_by_zero (x : float) : unbounded (x / 0)%float.
Proof.
  pose proof (div_spec x 0) as H.
  rewrite <- (SF2Prim_Prim2SF (x / 0)), H.
  change (Prim2SF 0) with (S754_zero false).
  unfold unbounded, SF64div, SFdiv.
  destruct (Prim2SF x) as [[|]|[|]| |[|] m e]; cbn [xorb]; auto.
Qed.

(** Infinities and NaNs average to the same value under each of the three
    coefficients, and that value minus itself is a NaN. *)
Lemma blend_unbounded (a z : float) :
  unbounded a -> unbounded z ->
  let fast := (a * (1 - 0.6) + z * 0.6)%float in
  (a * (1 - 0.05) + z * 0.05)%float = fast /\
  (a * (1 - 0.001) + z * 0.001)%float = fast /\
  unbounded fast /\ (fast - fast)%float = nan.
Proof.
  unfold unbounded.
  intros [-> | [-> | ->]] [-> | [-> | ->]]; vm_compute; repeat split; auto.
Qed.

Lemma zip_blend_unbounded (avg fft_norm : list float) (alpha : float) :
  alpha = 0.05%float \/ alpha = 0.001%float \/ alpha = 0.6%float ->
  Forall unbounded avg -> Forall unbounded fft_norm ->
  let blend c :=
    np.zip_with PrimFloat.add (np.scale avg (1 - c)%float)
      (np.scale fft_norm c) in
  blend alpha = blend 0.6%float /\
  Forall unbounded (blend 0.6%float) /\
  np.zip_with PrimFloat.sub (blend 0.6%float) (blend 0.6%float)
  = repeat nan (length (blend 0.6%float)).
Proof.
  intros A Fa. revert fft_norm.
  induction Fa as [|a avg Ua Fa IH]; intros fft_norm Ff; cbv zeta.
  - cbn. auto.
  - destruct Ff as [|z fft_norm Uz Ff]; [cbn; auto|].
    destruct (IH fft_norm Ff) as (E & U & D). cbv zeta in E, U, D.
    destruct (blend_unbounded a z Ua Uz) as (B1 & B2 & B3 & B4).
    cbv zeta in B1, B2, B3, B4. cbn [np.scale map np.zip_with length repeat].
    fold (np.scale avg). fold (np.scale fft_norm).
    split; [|split].
    + unfold np.scale in E |- *. rewrite E. f_equal.
      destruct A as [-> | [-> | ->]]; auto.
    + constructor; assumption.
    + unfold np.scale in D |- *. rewrite D, B4. reflexivity.
Qed.

Lemma max_of_nans (k : nat) (top : float) :
  np.max (repeat nan k) = inr top -> top = nan.
Proof.
  destruct k as [|k]; [discriminate|]. intros H.
  rewrite (max_nan (repeat nan (S k))) in H by now left.
  now injection H.
Qed.

Lemma slice_of_repeat {A : Type} (a : A) (k : nat) (lo hi : Z) :
  exists m, np.slice (repeat a k) lo hi = repeat a m.
Proof.
  unfold np.slice. rewrite skipn_repeat, firstn_repeat. eexists. reflexivity.
Qed.

(** One update with no chirps per frame. *)
Lemma zero_chirps_update (mat : ndarray2 float)
  (s s' : PresenceAntiPeekingAlgo) (out : bool * bool)
  (fft_norm : list float) :
  live s -> num_chirps_per_frame s = 0 ->
  averages_unbounded s -> sized (length fft_norm) s ->
  spectrum mat s = (s, inr fft_norm) ->
  update mat s = (s', inr out) ->
  out = (false, false) /\ averages_unbounded s'.
Proof.
  intros L C J S Hs H.
  destruct (reachable_configured s L)
    as (_ & _ & _ & _ & Tp & Tk & As & Am & Af).
  pose proof (reachable_averages s L) as I.
  (* the spectrum is unbounded *)
  assert (Uf : Forall unbounded fft_norm).
  { rewrite frame_spectrum_run in Hs. injection Hs as Hs.
    destruct (fft_spectrum mat (range_window s)) as [e|range_fft];
      [discriminate Hs|].
    cbn [rbind] in Hs. rewrite C in Hs.
    change (np.divide ?xs 0)
      with (ok (A := list float) (map (fun x => (x / 0)%float) xs)) in Hs.
    injection Hs as <-. apply Forall_map, Forall_forall.
    intros x _. apply div_by_zero. }
  (* the averages after line 76 are one unbounded array *)
  destruct (initialize_averages_sized fft_norm s I S)
    as (slow0 & fast0 & peek0 & A).
  cbv zeta in A. destruct A as (A1 & A2 & A3 & L1 & L2 & L3).
  assert (U0 : slow0 = fast0 /\ peek0 = fast0 /\ Forall unbounded fast0).
  { rewrite initialize_averages_run in A1, A2, A3.
    destruct (first_run s) eqn:F; read_attrs.
    - injection A1 as <-. injection A2 as <-. injection A3 as <-. auto.
    - destruct (J F) as (avg & J1 & J2 & J3 & Ua).
      split; [congruence|]. split; [congruence|]. congruence. }
  destruct U0 as (-> & -> & U0).
  apply presence_returns in H.
  destruct H as (f & slow & fast & slow_peek & slow' & fast'
                 & slow_peek' & data & top & data_peek & top_peek
                 & Hs' & (B1 & B2 & B3 & ->) & Es & Ef & Ed & Et & Ep & Edp
                 & Etp & ->).
  rewrite Hs in Hs'. injection Hs' as <-.
  rewrite A1 in B1. rewrite A2 in B2. rewrite A3 in B3.
  injection B1 as <-. injection B2 as <-. injection B3 as <-.
  rewrite As, Am in Es, Ep. rewrite Af in Ef.
  destruct (ema_same_length fast0 fft_norm
              (if negb (presence_status s) then 0.05 else 0.001)%float L2)
    as (z1 & E1 & V1 & _).
  rewrite E1 in Es. injection Es as <-.
  destruct (ema_same_length fast0 fft_norm 0.6%float L2)
    as (z2 & E2 & V2 & _).
  rewrite E2 in Ef. injection Ef as <-.
  destruct (ema_same_length fast0 fft_norm
              (if negb (peeking_status s) then 0.05 else 0.001)%float L2)
    as (z3 & E3 & V3 & _).
  rewrite E3 in Ep. injection Ep as <-.
  destruct (zip_blend_unbounded fast0 fft_norm
              (if negb (presence_status s) then 0.05 else 0.001)%float
              ltac:(destruct (negb (presence_status s)); auto) U0 Uf)
    as (Q1 & Uz & Dz).
  destruct (zip_blend_unbounded fast0 fft_norm
              (if negb (peeking_status s) then 0.05 else 0.001)%float
              ltac:(destruct (negb (peeking_status s)); auto) U0 Uf)
    as (Q3 & _ & _).
  cbv zeta in Q1, Q3, Uz, Dz. rewrite <- V2 in Q1, Q3, Uz, Dz.
  rewrite <- V1 in Q1. rewrite <- V3 in Q3. clear V1 V2 V3.
  rewrite Q1 in *. rewrite Q3 in *.
  unfold np.subtract in Ed, Edp.
  rewrite (binop_same_length _ z2 z2 eq_refl), Dz in Ed, Edp.
  injection Ed as <-. injection Edp as <-.
  destruct (slice_of_repeat nan (length z2) (detect_start_sample s)
              (detect_end_sample s)) as (m & Wd).
  destruct (slice_of_repeat nan (length z2) (peek_start_sample s)
              (peek_end_sample s)) as (m' & Wp).
  rewrite Wd in Et. rewrite Wp in Etp.
  apply max_of_nans in Et. apply max_of_nans in Etp. subst top top_peek.
  rewrite !ltb_nan_r. split; [reflexivity|].
  intros _. exists z2. read_attrs. auto.
Qed.

Lemma zero_chirps_loop (device : list (result frame_contents))
  (algo : PresenceAntiPeekingAlgo) (k : nat) :
  live algo ->
  num_chirps_per_frame algo = 0 ->
  2 <= num_samples_per_chirp algo ->
  Z.of_nat k = num_samples_per_chirp algo ->
  sized k algo -> averages_unbounded algo ->
  Forall (good (range_window algo) k) device ->
  exists algo' printed,
    loop device algo = (algo', printed, ok tt) /\
    length printed = length device /\
    Forall (fun status => status = (false, false)) printed.
Proof.
  revert algo; induction device as [|reading rest IH];
    intros algo L C N K S J G; cbn [main_loop].
  - exists algo, []. auto.
  - inversion_clear G as [|? ? G1 G2].
    assert (C0 : np.float_of_int (num_chirps_per_frame algo) = inr 0%float)
      by now rewrite C.
    destruct (good_iteration reading algo k _ L N K S C0 G1)
      as (mat & fft_norm & algo1 & status & M & Hs & Len & U & L1 & S1 & Q).
    rewrite M, U.
    pose proof (same_config_good _ _ _ _ Q G2) as G2'.
    rewrite <- Len in S.
    destruct (zero_chirps_update mat algo algo1 status fft_norm
                L C J S Hs U) as (-> & J1).
    destruct Q as (Qn & Qc & _).
    destruct (IH algo1 L1 ltac:(congruence) ltac:(congruence)
                ltac:(congruence) S1 J1 G2')
      as (algo2 & printed & -> & Lp & V).
    exists algo2, ((false, false) :: printed). cbn [length].
    split; [reflexivity|]. split; [now rewrite Lp|]. now constructor.
Qed.

(** With no chirps per frame nothing is ever detected.  An object built
    with [num_chirps_per_frame = 0] divides every spectrum by zero: over
    good readings the loop raises nothing and prints [(False, False)] for
    every frame, whatever the frames hold. *)
Theorem zero_chirps_never_detect (device : list (result frame_contents))
  (n : Z) (k : nat) (algo : PresenceAntiPeekingAlgo) :
  new n 0 = inr algo ->
  2 <= n -> Z.of_nat k = n ->
  Forall (good (range_window algo) k) device ->
  exists algo' printed,
    loop device algo = (algo', printed, ok tt) /\
    length printed = length device /\
    Forall (fun status => status = (false, false)) printed.
Proof.
  intros I N K G.
  destruct (init_returns n 0 algo I)
    as (_ & Hn & Hc & F & _ & _ & A1 & A2 & A3).
  assert (L : live algo) by now apply reachable_init with (n := n) (c := 0).
  assert (S : sized k algo).
  { unfold sized. rewrite A1, A2, A3. repeat split; discriminate. }
  assert (J : averages_unbounded algo).
  { unfold averages_unbounded. rewrite F. discriminate. }
  apply (zero_chirps_loop device algo k L); try assumption; congruence.
Qed.

(** ** The bins below the detect window *)

Lemma agree_from_refl (j : nat) (xs : list float) : agree_from j xs xs.
Proof. split; auto. Qed.

Lemma agree_zip (f : float -> float -> float) (c d : float) (j : nat)
  (a a' b b' : list float) :
  agree_from j a a' -> agree_from j b b' ->
  agree_from j (np.zip_with f (np.scale a c) (np.scale b d))
    (np.zip_with f (np.scale a' c) (np.scale b' d)).
Proof.
  intros [La Ha] [Lb Hb]. split.
  - rewrite !zip_with_overhang, !scale_length. congruence.
  - intros i I. rewrite !nth_error_zip_with, !nth_error_scale.
    now rewrite (Ha i I), (Hb i I).
Qed.

Lemma agree_sub (j : nat) (a a' b b' : list float) :
  agree_from j a a' -> agree_from j b b' ->
  agree_from j (np.zip_with PrimFloat.sub a b) (np.zip_with PrimFloat.sub a' b').
Proof.
  intros [La Ha] [Lb Hb]. split.
  - rewrite !zip_with_overhang. congruence.
  - intros i I. rewrite !nth_error_zip_with.
    now rewrite (Ha i I), (Hb i I).
Qed.

Lemma agree_slice (j : nat) (xs ys : list float) (lo hi : Z) :
  agree_from j xs ys -> Z.of_nat j <= lo -> 0 <= hi ->
  np.slice xs lo hi = np.slice ys lo hi.
Proof.
  intros [L H] B B'.
  apply slice_local; [lia | lia | exact L | intros i I; apply H; lia].
Qed.

(** The averages after line 76, on two objects that agree from [j] on. *)
Lemma initialize_averages_agree (j : nat) (f g : list float)
  (s t : PresenceAntiPeekingAlgo) :
  same_from j s t -> agree_from j f g ->
  same_from j (fst (initialize_averages f s))
    (fst (initialize_averages g t)).
Proof.
  intros (Q & F & P & K & A1 & A2 & A3) Afg.
  rewrite !initialize_averages_run, F.
  unfold same_from, same_config in *.
  destruct (first_run s) eqn:Fs; cbn [fst]; read_attrs;
    repeat match goal with |- _ /\ _ => split end;
    try tauto; try assumption; congruence.
Qed.

(** One update on two objects that agree from [n/8] on. *)
Lemma blind_update (mat mat' : ndarray2 float)
  (s t s' t' : PresenceAntiPeekingAlgo) (out out' : bool * bool)
  (f g : list float) :
  live s ->
  0 <= num_samples_per_chirp s ->
  let j := Z.to_nat (num_samples_per_chirp s / 8) in
  same_from j s t ->
  sized (length f) s ->
  spectrum mat s = (s, inr f) ->
  spectrum mat' t = (t, inr g) ->
  agree_from j f g ->
  update mat s = (s', inr out) ->
  update mat' t = (t', inr out') ->
  out = out' /\ same_from j s' t'.
Proof.
  intros L N j Q S Hs Ht Afg H H'.
  destruct (reachable_configured s L) as (Ds & De & Ps & Pe & _).
  pose proof (reachable_averages s L) as I.
  assert (B : Z.of_nat j = num_samples_per_chirp s / 8 /\
              num_samples_per_chirp s / 8 <= num_samples_per_chirp s / 2 /\
              0 <= num_samples_per_chirp s / 2).
  { unfold j.
    pose proof (Z.div_mod (num_samples_per_chirp s) 8 ltac:(lia)).
    pose proof (Z.mod_pos_bound (num_samples_per_chirp s) 8 ltac:(lia)).
    pose proof (Z.div_mod (num_samples_per_chirp s) 2 ltac:(lia)).
    pose proof (Z.mod_pos_bound (num_samples_per_chirp s) 2 ltac:(lia)).
    lia. }
  destruct B as (Bj & B2 & B3).
  destruct (initialize_averages_sized f s I S)
    as (slow0 & fast0 & peek0 & A).
  cbv zeta in A. destruct A as (A1 & A2 & A3 & L1 & L2 & L3).
  pose proof (initialize_averages_agree j f g s t Q Afg) as Q1.
  destruct (initialize_averages_config f s) as (Cs & Ps1 & Ks1).
  destruct (initialize_averages_config g t) as (Ct & Pt1 & Kt1).
  destruct Q as (Qc & _ & Qp & Qk & _).
  apply presence_returns in H. apply presence_returns in H'.
  destruct H as (f0 & slow & fast & slow_peek & slow' & fast'
                 & slow_peek' & data & top & data_peek & top_peek
                 & Hs' & (B1 & B2' & B3' & ->) & Es & Ef & Ed & Et & Ep & Edp
                 & Etp & ->).
  rewrite Hs in Hs'. injection Hs' as <-.
  rewrite A1 in B1. rewrite A2 in B2'. rewrite A3 in B3'.
  injection B1 as <-. injection B2' as <-. injection B3' as <-.
  destruct H' as (g0 & slowt & fastt & slow_peekt & slowt' & fastt'
                  & slow_peekt' & datat & topt & data_peekt & top_peekt
                  & Ht' & (T1 & T2 & T3 & ->) & Est & Eft & Edt & Ett & Ept
                  & Edpt & Etpt & ->).
  rewrite Ht in Ht'. injection Ht' as <-.
  set (s1 := fst (initialize_averages f s)) in *.
  set (t1 := fst (initialize_averages g t)) in *.
  destruct Q1 as (Q1c & Q1f & _ & _ & G1 & G2 & G3).
  unfold averages_agree_from in G1, G2, G3.
  rewrite A1, T1 in G1. rewrite A2, T2 in G2. rewrite A3, T3 in G3.
  destruct Qc as (_ & _ & Qds & Qde & Qps & Qpe & Qtp & Qtk & Qas & Qam
                  & Qaf & _).
  rewrite Qp, Qas, Qam in Est. rewrite Qaf in Eft.
  rewrite Qk, Qas, Qam in Ept.
  rewrite Qds, Qde in Ett. rewrite Qps, Qpe in Etpt. rewrite Qtp, Qtk.
  assert (Lg : length g = length f) by (symmetry; apply Afg).
  destruct (ema_same_length slow0 f
              (if negb (presence_status s)
               then alpha_med s else alpha_slow s) L1) as (x1 & X1 & V1 & W1).
  destruct (ema_same_length fast0 f (alpha_fast s) L2)
    as (x2 & X2 & V2 & W2).
  destruct (ema_same_length peek0 f
              (if negb (peeking_status s)
               then alpha_med s else alpha_slow s) L3) as (x3 & X3 & V3 & W3).
  rewrite X1 in Es. rewrite X2 in Ef. rewrite X3 in Ep.
  injection Es as <-. injection Ef as <-. injection Ep as <-.
  destruct (ema_same_length slowt g
              (if negb (presence_status s)
               then alpha_med s else alpha_slow s)
              ltac:(destruct G1; congruence)) as (y1 & Y1 & U1 & Z1).
  destruct (ema_same_length fastt g (alpha_fast s)
              ltac:(destruct G2; congruence)) as (y2 & Y2 & U2 & Z2).
  destruct (ema_same_length slow_peekt g
              (if negb (peeking_status s)
               then alpha_med s else alpha_slow s)
              ltac:(destruct G3; congruence)) as (y3 & Y3 & U3 & Z3).
  rewrite Y1 in Est. rewrite Y2 in Eft. rewrite Y3 in Ept.
  injection Est as <-. injection Eft as <-. injection Ept as <-.
  assert (R1 : agree_from j x1 y1) by (subst x1 y1; now apply agree_zip).
  assert (R2 : agree_from j x2 y2) by (subst x2 y2; now apply agree_zip).
  assert (R3 : agree_from j x3 y3) by (subst x3 y3; now apply agree_zip).
  unfold np.subtract in Ed, Edp, Edt, Edpt.
  rewrite (binop_same_length _ x2 x1) in Ed by congruence.
  rewrite (binop_same_length _ x2 x3) in Edp by congruence.
  rewrite (binop_same_length _ y2 y1) in Edt by congruence.
  rewrite (binop_same_length _ y2 y3) in Edpt by congruence.
  injection Ed as <-. injection Edp as <-.
  injection Edt as <-. injection Edpt as <-.
  rewrite Ds, De in Et, Ett. rewrite Ps, Pe in Etp, Etpt.
  rewrite (agree_slice j _ _ _ _ (agree_sub j _ _ _ _ R2 R1)) in Et by lia.
  rewrite (agree_slice j _ _ _ _ (agree_sub j _ _ _ _ R2 R3)) in Etp by lia.
  rewrite Ett in Et. rewrite Etpt in Etp.
  injection Et as <-. injection Etp as <-.
  split; [reflexivity|].
  unfold same_from, same_config, averages_agree_from in *. read_attrs.
  repeat match goal with |- _ /\ _ => split end;
    try tauto; try assumption.
Qed.

(** The bins below the detect window never matter.  Take two objects that
    differ at most in the bins below [n/8] of their averages, and two
    frames whose normalised spectra agree in every bin from [n/8] on: the
    two updates return the same pair, and leave two objects that again
    differ at most in the bins below [n/8] of their averages. *)
Theorem bins_below_detect_never_matter (mat mat' : ndarray2 float)
  (s t s' t' : PresenceAntiPeekingAlgo) (out out' : bool * bool)
  (f g : list float) :
  live s ->
  0 <= num_samples_per_chirp s ->
  let j := Z.to_nat (num_samples_per_chirp s / 8) in
  same_from j s t ->
  sized (length f) s ->
  spectrum mat s = (s, inr f) ->
  spectrum mat' t = (t, inr g) ->
  agree_from j f g ->
  update mat s = (s', inr out) ->
  update mat' t = (t', inr out') ->
  out = out' /\ same_from j s' t'.
Proof. exact (blind_update mat mat' s t s' t' out out' f g). Qed.

End Facts.

(** ** The thermal sensor loop *)

Section ThermalFacts.

Variable format_2f : float -> String.string.

Local Abbreviation turn := (iteration format_2f).
Local Abbreviation text := (message format_2f).

Lemma ltb_false_leb (x y : float) :
  ordered x -> ordered y -> (x <? y)%float = false -> (y <=? x)%float = true.
Proof.
  intros Ox Oy L. destruct (y <=? x)%float eqn:E; [reflexivity|].
  apply (leb_key y x Oy Ox) in E. apply (ltb_key x y Ox Oy) in E.
  congruence.
Qed.

Lemma py_max_step (t best item : float) :
  ordered t -> ordered best -> ordered item ->
  let best' := if (best <? item)%float then item else best in
  ordered best' /\
  (t <? best')%float = ((t <? best)%float || (t <? item)%float)%bool.
Proof.
  intros Ot Ob Oi. cbv zeta. destruct (best <? item)%float eqn:L.
  - split; [assumption|].
    destruct (t <? best)%float eqn:T; [|reflexivity].
    apply (ltb_trans t best item Ot Ob Oi T L).
  - split; [assumption|].
    destruct (t <? item)%float eqn:T; [|now rewrite orb_false_r].
    rewrite (ltb_leb_trans t item best Ot Oi Ob T
               (ltb_false_leb best item Ob Oi L)).
    reflexivity.
Qed.

Lemma py_max_fold_exceeds (t : float) (rest : list float) (x : float) :
  ordered t -> ordered x -> Forall ordered rest ->
  let m := fold_left (fun best item => if (best <? item)%float
                                       then item else best) rest x in
  ordered m /\
  (t <? m)%float = ((t <? x)%float || existsb (fun y => t <? y)%float rest)%bool.
Proof.
  intros Ot. revert x.
  induction rest as [|y rest IH]; intros x Ox F; cbn [fold_left existsb].
  - split; [assumption|now rewrite orb_false_r].
  - inversion_clear F as [|? ? Oy F'].
    destruct (py_max_step t x y Ot Ox Oy) as [Om Em].
    destruct (IH _ Om F') as [Of Ef].
    split; [assumption|]. cbv zeta in Ef. now rewrite Ef, Em, orb_assoc.
Qed.

Lemma py_max_fold_In (rest : list float) (x : float) :
  In (fold_left (fun best item => if (best <? item)%float
                                  then item else best) rest x) (x :: rest).
Proof.
  revert x; induction rest as [|y rest IH]; intros x; cbn [fold_left].
  - now left.
  - destruct (IH (if (x <? y)%float then y else x)) as [E|I].
    + rewrite <- E. destruct (x <? y)%float; [right; now left|now left].
    + right. now right.
Qed.

Lemma py_max_fold_nan (rest : list float) :
  fold_left (fun best item => if (best <? item)%float then item else best)
    rest nan = nan.
Proof.
  induction rest as [|y rest IH]; cbn [fold_left]; [reflexivity|].
  replace (nan <? y)%float with false; [exact IH|].
  rewrite ltb_spec. reflexivity.
Qed.

(** What a turn reports.  When the sensor fills a frame that is not empty
    and holds no NaN, the turn builds the message of the hottest pixel,
    with presence 1 exactly when some pixel is above 28.0; it sends that
    message to the TouchDesigner address, prints it and sleeps, or, when
    the socket raises, prints the error and sleeps. *)
Theorem turn_reports_hot_pixel (env : surroundings) (frame : list float) :
  getFrame env (repeat 0%float 768) = inr frame ->
  frame <> [] -> ~ In nan frame ->
  exists max_temp,
    py_max frame = inr max_temp /\ In max_temp frame /\
    let m := text (existsb (fun x => 28.0 <? x)%float frame) max_temp in
    match sendto env m TD_IP TD_PORT with
    | inr _ => turn env = [udp_sendto m TD_IP TD_PORT; print_sent m; time_sleep 1]
    | inl e => turn env = [print_sensor_error e; time_sleep 1]
    end.
Proof.
  intros G NE NN. destruct frame as [|x rest]; [now elim NE|].
  pose proof (not_nan_ordered _ NN) as F.
  inversion_clear F as [|? ? Ox F'].
  assert (Ot : ordered 28.0%float) by (unfold ordered; vm_compute; discriminate).
  destruct (py_max_fold_exceeds 28.0%float rest x Ot Ox F') as [_ E].
  cbv zeta in E.
  eexists. split; [reflexivity|]. split; [apply py_max_fold_In|].
  cbv zeta. unfold iteration. rewrite G. cbn [rbind py_max ok].
  unfold PRESENCE_THRESHOLD. rewrite E. cbn [existsb].
  destruct (sendto env _ TD_IP TD_PORT) as [e|u]; reflexivity.
Qed.

(** A NaN in the first pixel hides the frame.  [max] then returns the NaN,
    whatever the other pixels are, and the message says presence 0. *)
Theorem turn_nan_first_pixel (env : surroundings) (rest : list float) :
  getFrame env (repeat 0%float 768) = inr (nan :: rest) ->
  let m := text false nan in
  match sendto env m TD_IP TD_PORT with
  | inr _ => turn env = [udp_sendto m TD_IP TD_PORT; print_sent m; time_sleep 1]
  | inl e => turn env = [print_sensor_error e; time_sleep 1]
  end.
Proof.
  intros G. cbv zeta. unfold iteration. rewrite G.
  cbn [rbind py_max ok]. rewrite py_max_fold_nan.
  replace (PRESENCE_THRESHOLD <? nan)%float with false
    by (symmetry; apply ltb_nan_r).
  destruct (sendto env _ TD_IP TD_PORT) as [e|u]; reflexivity.
Qed.

Lemma turn_shape (env : surroundings) :
  (exists e, turn env = [print_sensor_error e; time_sleep 1]) \/
  (exists m, turn env = [udp_sendto m TD_IP TD_PORT; print_sent m;
                         time_sleep 1]).
Proof.
  unfold iteration.
  destruct (rbind _ _) as [e|m]; [left; now exists e|right; now exists m].
Qed.

(** The loop keeps going.  Whatever the sensor and the socket raise, every
    turn ends in its sleep; a turn sends at most one datagram, and every
    datagram goes to the TouchDesigner address. *)
Theorem thermal_loop_keeps_going (envs : list surroundings) :
  let outputs := thermal_loop format_2f envs in
  length (filter is_sleep outputs) = length envs /\
  (length (filter is_datagram outputs) <= length envs)%nat /\
  (forall payload host port,
      In (udp_sendto payload host port) outputs ->
      host = TD_IP /\ port = TD_PORT).
Proof.
  cbv zeta. unfold thermal_loop.
  induction envs as [|env envs (IS & ID & IA)]; cbn [flat_map].
  - cbn. split; [reflexivity|]. split; [lia|]. intros ? ? ? [].
  - assert (T : length (filter is_sleep (turn env)) = 1%nat /\
                (length (filter is_datagram (turn env)) <= 1)%nat /\
                (forall payload host port,
                    In (udp_sendto payload host port) (turn env) ->
                    host = TD_IP /\ port = TD_PORT)).
    { destruct (turn_shape env) as [(e & ->)|(m & ->)]; cbn.
      - split; [reflexivity|]. split; [lia|].
        intros payload host port [E|[E|[]]]; discriminate E.
      - split; [reflexivity|]. split; [lia|].
        intros payload host port [E|[E|[E|[]]]]; try discriminate E.
        injection E as _ <- <-. auto. }
    destruct T as (TS & TD & TA).
    rewrite !filter_app, !length_app. cbn [length].
    split; [lia|]. split; [lia|].
    intros payload host port I. apply in_app_or in I.
    destruct I as [I|I]; eauto.
Qed.

End ThermalFacts.

(** ** The class at work on concrete frames *)

Section Runs.

Import Example.

Local Abbreviation live :=
  (reachable Stub.blackmanharris Stub.blackmanharris
     Stub.fft_spectrum Stub.hypot).

Lemma algo_8_2_live : live algo_8_2.
Proof. exact (reachable_init Stub.blackmanharris Stub.blackmanharris
           Stub.fft_spectrum Stub.hypot 8 2 algo_8_2 eq_refl). Qed.

Lemma algo_8_2_first_live : live algo_8_2_first.
Proof.
  exact (reachable_presence Stub.blackmanharris Stub.blackmanharris
           Stub.fft_spectrum Stub.hypot algo_8_2 ones algo_8_2_live).
Qed.

Lemma algo_1_2_live : live algo_1_2.
Proof. exact (reachable_init Stub.blackmanharris Stub.blackmanharris
           Stub.fft_spectrum Stub.hypot 1 2 algo_1_2 eq_refl). Qed.

Lemma algo_256_32_live : live algo_256_32.
Proof. exact (reachable_init Stub.blackmanharris Stub.blackmanharris
           Stub.fft_spectrum Stub.hypot 256 32 algo_256_32 eq_refl). Qed.

Example second_frame :
  Stub.presence threes algo_8_2_first = (algo_8_2_second, inr (true, true)).
Proof. reflexivity. Qed.

(** *** Frames that the claims as first stated do not survive *)

(** A frame of one chirp given to an object configured for two: the
    update returns, and the averages are set. *)
Lemma wrong_row_count_is_processed :
  Z.of_nat (nrows (constant_frame 1 8 0)) <> num_chirps_per_frame algo_8_2 /\
  slow_avg algo_8_2 = None /\
  exists s',
    Stub.presence (constant_frame 1 8 0) algo_8_2 = (s', inr (false, false)) /\
    slow_avg s' = Some (repeat 0%float 8) /\
    fast_avg s' = Some (repeat 0%float 8) /\
    slow_peek_avg s' = Some (repeat 0%float 8).
Proof.
  split; [cbn; lia|]. split; [reflexivity|].
  eexists. split; [vm_compute; reflexivity|]. cbn. repeat split.
Qed.

(** Zero chirps per frame, and a negative number of them, construct. *)
Lemma nonpositive_chirps_construct :
  (exists s, Stub.new 256 0 = inr s /\ num_chirps_per_frame s = 0) /\
  (exists s, Stub.new 256 (-3) = inr s /\ num_chirps_per_frame s = -3).
Proof.
  split; eexists; (split; [vm_compute; reflexivity|reflexivity]).
Qed.

(** With one sample per chirp a first frame of zeros raises: no pair is
    returned. *)
Lemma single_sample_zero_frame_raises :
  first_run algo_1_2 = true /\
  snd (Stub.presence (constant_frame 2 1 0) algo_1_2) = inl ValueError.
Proof. split; reflexivity. Qed.

(** The same call has cleared [first_run] and set the averages before it
    raised. *)
Lemma raise_after_assignments :
  exists s',
    Stub.presence (constant_frame 2 1 0) algo_1_2 = (s', inl ValueError) /\
    (first_run algo_1_2, first_run s') = (true, false) /\
    (slow_avg algo_1_2, slow_avg s') = (None, Some [0%float]) /\
    (fast_avg algo_1_2, fast_avg s') = (None, Some [0%float]) /\
    (slow_peek_avg algo_1_2, slow_peek_avg s') = (None, Some [0%float]).
Proof.
  eexists. split; [vm_compute; reflexivity|]. cbn. repeat split.
Qed.

(** *** The theorems at concrete frames *)

Lemma presence_rejected_frame_at_3_columns :
  Stub.presence (constant_frame 2 3 1) algo_8_2 = (algo_8_2, inl ValueError).
Proof.
  apply (presence_rejected_frame Stub.fft_spectrum Stub.hypot
           (constant_frame 2 3 1) algo_8_2 ValueError).
  - right. cbn. lia.
  - reflexivity.
Defined.

Lemma single_sample_never_returns_at_zeros :
  exists s' e,
    Stub.presence (constant_frame 2 1 0) algo_1_2 = (s', inl e) /\
    presence_status s' = false /\ peeking_status s' = false.
Proof.
  apply (single_sample_never_returns
           Stub.blackmanharris Stub.blackmanharris
           Stub.fft_spectrum Stub.hypot
           (constant_frame 2 1 0) algo_1_2 algo_1_2_live).
  reflexivity.
Defined.

Lemma windows_by_floor_division_at_256 :
  (detect_start_sample algo_256_32, detect_end_sample algo_256_32)
  = (32, 128) /\
  (peek_start_sample algo_256_32, peek_end_sample algo_256_32)
  = (128, 256).
Proof.
  apply (windows_by_floor_division
           Stub.blackmanharris Stub.blackmanharris
           Stub.fft_spectrum Stub.hypot algo_256_32 algo_256_32_live).
  reflexivity.
Defined.

Lemma fast_avg_written_once_at_second_frame :
  exists fast fast',
    fast_avg algo_8_2_first = Some fast /\
    np.add (np.scale fast (1 - 0.6)%float)
           (np.scale (repeat 3%float 8) 0.6%float) = inr fast' /\
    fast_avg algo_8_2_second = Some fast'.
Proof.
  destruct (fast_avg_written_once
              Stub.blackmanharris Stub.blackmanharris
              Stub.fft_spectrum Stub.hypot
              threes algo_8_2_first algo_8_2_second (true, true)
              algo_8_2_first_live second_frame)
    as (fft_norm & fast & fast' & slow_peek' & data_peek & top_peek
        & Hs & _ & Hf & He & Hf' & _).
  injection Hs as <-.
  exists fast, fast'. split; [apply Hf; reflexivity|]. split; assumption.
Defined.

Lemma slow_averages_adapt_at_second_frame :
  exists slow slow',
    slow_avg algo_8_2_first = Some slow /\
    np.add (np.scale slow (1 - 0.05)%float)
           (np.scale (repeat 3%float 8) 0.05%float) = inr slow' /\
    slow_avg algo_8_2_second = Some slow'.
Proof.
  destruct (slow_averages_adapt
              Stub.blackmanharris Stub.blackmanharris
              Stub.fft_spectrum Stub.hypot
              threes algo_8_2_first algo_8_2_second (true, true)
              algo_8_2_first_live second_frame)
    as (fft_norm & slow & slow_peek & slow' & slow_peek'
        & Hs & _ & _ & Hf & He & Hs' & _).
  injection Hs as <-.
  exists slow, slow'. split; [apply Hf; reflexivity|]. split; assumption.
Defined.

Lemma thresholds_are_strict_at_second_frame :
  exists top top_peek,
    presence_status algo_8_2_second = (0.0007 <? top)%float /\
    peeking_status algo_8_2_second = (0.0006 <? top_peek)%float.
Proof.
  destruct (thresholds_are_strict
              Stub.blackmanharris Stub.blackmanharris
              Stub.fft_spectrum Stub.hypot
              threes algo_8_2_first algo_8_2_second (true, true)
              algo_8_2_first_live second_frame)
    as (fast & slow & slow_peek & data & data_peek & top & top_peek
        & _ & _ & _ & _ & _ & _ & _ & _ & Hp & _ & _ & Hk & _).
  exists top, top_peek. split; assumption.
Defined.

Lemma first_frame_initialises_at_zeros :
  exists s',
    Stub.presence (constant_frame 2 8 0) algo_8_2 = (s', inr (false, false)).
Proof.
  apply (first_frame_initialises Stub.blackmanharris Stub.blackmanharris
           Stub.fft_spectrum Stub.hypot
           (constant_frame 2 8 0) algo_8_2 (repeat 0%float 8)
           eq_refl eq_refl).
  - exact algo_8_2_live.
  - cbn. lia.
  - eexists. split; [reflexivity|]. split; [|reflexivity].
    unfold silent. cbn.
    repeat (constructor; [split; [reflexivity|repeat constructor]|]).
    constructor.
Defined.

(** *** The further theorems at concrete frames *)

Lemma sized_fresh (k : nat) : sized k algo_8_2.
Proof. unfold sized. cbn. repeat split; discriminate. Qed.

Lemma algo_8_2_nan_live : live algo_8_2_nan.
Proof.
  exact (reachable_presence Stub.blackmanharris Stub.blackmanharris
           Stub.fft_spectrum Stub.hypot algo_8_2 nans algo_8_2_live).
Qed.

Lemma sized_nan : sized 8 algo_8_2_nan.
Proof.
  unfold sized. cbn. repeat split; intros v E; injection E as <-; reflexivity.
Qed.

(** The stand-in for the FFT helper makes good readings of rectangular
    frames as wide as the window. *)
Lemma good_stub (k : nat) (mat : ndarray2 float) (w : ndarray2 float) :
  ncols mat = k -> ncols w = k ->
  forall row, rows w = [row] ->
  Forall (fun r => length r = k) (rows mat) -> length row = k ->
  good_reading Stub.fft_spectrum w k (reading mat).
Proof.
  intros Cm Cw row Rw F Lr. unfold good_reading, reading.
  exists [[mat]], mat. unfold Stub.fft_spectrum. rewrite Rw, Cm, Cw.
  rewrite Nat.eqb_refl.
  eexists. split; [reflexivity|]. split; [reflexivity|].
  split; [reflexivity|]. split; [|reflexivity].
  unfold rectangular. cbn [ncols rows]. apply Forall_map.
  eapply Forall_impl; [|exact F]. intros r Len. cbn.
  rewrite length_map, zip_with_overhang, Len, Lr. apply Nat.min_id.
Qed.

Lemma constant_frame_rows (r c : nat) (v : float) :
  Forall (fun row => length row = c) (rows (constant_frame r c v)).
Proof.
  apply Forall_forall. intros row I. cbn in I.
  apply repeat_spec in I. subst row. apply repeat_length.
Qed.

Local Abbreviation update := (presence Stub.fft_spectrum Stub.hypot).
Local Abbreviation spectrum := (frame_spectrum Stub.fft_spectrum Stub.hypot).
Local Abbreviation loop := (main_loop Stub.fft_spectrum Stub.hypot).

Example first_update :
  update ones algo_8_2 = (algo_8_2_first, inr (false, false)).
Proof. vm_compute. reflexivity. Qed.

Example second_update :
  update threes algo_8_2_first = (algo_8_2_second, inr (true, true)).
Proof. vm_compute. reflexivity. Qed.

Example nan_update :
  update nans algo_8_2 = (algo_8_2_nan, inr (false, false)).
Proof. vm_compute. reflexivity. Qed.

Example raising_update :
  update (constant_frame 2 1 0) algo_1_2 = (algo_1_2_raised, inl ValueError).
Proof. vm_compute. reflexivity. Qed.

Lemma averages_set_after_first_frame_at_first :
  exists slow fast slow_peek,
    slow_avg algo_8_2_first = Some slow /\
    fast_avg algo_8_2_first = Some fast /\
    slow_peek_avg algo_8_2_first = Some slow_peek.
Proof.
  apply (averages_set_after_first_frame
           Stub.blackmanharris Stub.blackmanharris
           Stub.fft_spectrum Stub.hypot algo_8_2_first algo_8_2_first_live).
  reflexivity.
Defined.

Lemma presence_raises_only_at_single_sample :
  Stub.fft_spectrum (constant_frame 2 1 0) (range_window algo_1_2)
  = inl ValueError \/
  (ValueError = OverflowError /\
   np.float_of_int (num_chirps_per_frame algo_1_2) = inl OverflowError) \/
  ValueError = ValueError.
Proof.
  exact (presence_raises_only
           Stub.blackmanharris Stub.blackmanharris
           Stub.fft_spectrum Stub.hypot
           (constant_frame 2 1 0) algo_1_2 algo_1_2_raised ValueError
           algo_1_2_live raising_update).
Defined.

Lemma presence_returns_when_sized_at_ones :
  exists s' out,
    update ones algo_8_2 = (s', inr out) /\
    sized (length (repeat 1%float 8)) s' /\ first_run s' = false.
Proof.
  apply (presence_returns_when_sized
           Stub.blackmanharris Stub.blackmanharris
           Stub.fft_spectrum Stub.hypot
           ones algo_8_2 (repeat 1%float 8) algo_8_2_live).
  - cbn. lia.
  - vm_compute. reflexivity.
  - reflexivity.
  - apply sized_fresh.
Defined.

Lemma status_iff_a_bin_exceeds_at_second_frame :
  exists data,
    ~ In nan (np.slice data 1 4) ->
    existsb (fun x => 0.0007 <? x)%float (np.slice data 1 4) = true.
Proof.
  destruct (status_iff_a_bin_exceeds
              Stub.blackmanharris Stub.blackmanharris
              Stub.fft_spectrum Stub.hypot
              threes algo_8_2_first algo_8_2_second (true, true)
              algo_8_2_first_live second_update)
    as (fast & slow & slow_peek & data & data_peek
        & _ & _ & _ & _ & _ & (Hn & _) & _).
  exists data. intros N. symmetry. exact (Hn N).
Defined.

Lemma nan_bin_silences_at_nans :
  exists fast', fast_avg algo_8_2_nan = Some fast' /\
                nth_error fast' 1 = Some nan.
Proof.
  apply (nan_bin_silences
           Stub.blackmanharris Stub.blackmanharris
           Stub.fft_spectrum Stub.hypot
           nans algo_8_2 algo_8_2_nan (false, false) (repeat nan 8) 1
           algo_8_2_live).
  - cbn. lia.
  - vm_compute. reflexivity.
  - apply sized_fresh.
  - left. reflexivity.
  - exact nan_update.
Defined.

Lemma windows_partition_at_8 :
  let data := [0; 1; 2; 3; 4; 5; 6; 7]%float in
  length (np.slice data (detect_start_sample algo_8_2)
            (detect_end_sample algo_8_2)) = 3%nat.
Proof.
  apply (windows_partition
           Stub.blackmanharris Stub.blackmanharris
           Stub.fft_spectrum Stub.hypot
           algo_8_2 [0; 1; 2; 3; 4; 5; 6; 7]%float algo_8_2_live).
  reflexivity.
Defined.

Lemma next_coefficient_follows_status_at_second_frame :
  exists fft_norm slow slow',
    slow_avg algo_8_2_first = Some slow /\
    ema slow fft_norm 0.05%float = inr slow' /\
    slow_avg algo_8_2_second = Some slow'.
Proof.
  destruct (next_coefficient_follows_status
              Stub.blackmanharris Stub.blackmanharris
              Stub.fft_spectrum Stub.hypot
              ones threes algo_8_2 algo_8_2_first algo_8_2_second
              (false, false) (true, true)
              algo_8_2_live first_update second_update)
    as (fft_norm & slow & slow_peek & slow' & slow_peek'
        & _ & A & _ & E & A' & _).
  exists fft_norm, slow, slow'. auto.
Defined.

Example failing_loop :
  loop [reading ones; inl ValueError] algo_8_2
  = (algo_8_2_first, [(false, false)], inl ValueError).
Proof. vm_compute. reflexivity. Qed.

Lemma main_loop_prints_until_exception_at_a_failure :
  live algo_8_2_first /\
  (length [(false, false)] < length [reading ones; inl ValueError])%nat.
Proof.
  exact (main_loop_prints_until_exception
           Stub.blackmanharris Stub.blackmanharris
           Stub.fft_spectrum Stub.hypot
           [reading ones; inl ValueError] algo_8_2 algo_8_2_first
           [(false, false)] (inl ValueError) algo_8_2_live failing_loop).
Defined.

Lemma main_loop_completes_at_two_frames :
  exists algo' printed,
    loop [reading ones; reading threes] algo_8_2 = (algo', printed, ok tt) /\
    length printed = length [reading ones; reading threes] /\
    sized 8 algo'.
Proof.
  apply (main_loop_completes
           Stub.blackmanharris Stub.blackmanharris
           Stub.fft_spectrum Stub.hypot
           [reading ones; reading threes] algo_8_2 8 2%float algo_8_2_live).
  - cbn. lia.
  - reflexivity.
  - apply sized_fresh.
  - vm_compute. reflexivity.
  - apply Forall_cons; [|apply Forall_cons; [|apply Forall_nil]];
      (eapply good_stub;
       [reflexivity | reflexivity | reflexivity
       | apply constant_frame_rows | reflexivity]).
Defined.

Lemma main_loop_nan_silences_at_one_frame :
  exists algo' printed,
    loop [reading ones] algo_8_2_nan = (algo', printed, ok tt) /\
    length printed = length [reading ones].
Proof.
  destruct (main_loop_nan_silences
              Stub.blackmanharris Stub.blackmanharris
              Stub.fft_spectrum Stub.hypot
              [reading ones] algo_8_2_nan 8 2%float (repeat nan 8) 1
              algo_8_2_nan_live)
    as (algo' & printed & E & Len & _).
  - cbn. lia.
  - reflexivity.
  - apply sized_nan.
  - vm_compute. reflexivity.
  - apply Forall_cons; [|apply Forall_nil].
    eapply good_stub;
      [reflexivity | reflexivity | reflexivity
      | apply constant_frame_rows | reflexivity].
  - reflexivity.
  - reflexivity.
  - exists algo', printed. auto.
Defined.

Lemma init_only_with_window_at_8 :
  exists w,
    (Stub.blackmanharris 8 = inr w \/
     (Stub.blackmanharris 8 = inl AttributeError /\
      Stub.blackmanharris 8 = inr w)) /\
    (8 = -1 \/ 8 = Z.of_nat (length w)) /\
    range_window algo_8_2 = mk_ndarray2 (length w) [w].
Proof.
  apply (init_only_with_window Stub.blackmanharris Stub.blackmanharris
           8 2 algo_8_2).
  vm_compute. reflexivity.
Defined.

Lemma main_completes_at_one_frame :
  exists printed,
    main Stub.blackmanharris Stub.blackmanharris Stub.fft_spectrum Stub.hypot
      [reading (constant_frame 32 256 1)] = (printed, ok tt) /\
    length printed = length [reading (constant_frame 32 256 1)].
Proof.
  apply (main_completes Stub.blackmanharris Stub.blackmanharris
           Stub.fft_spectrum Stub.hypot
           [reading (constant_frame 32 256 1)] (repeat 1%float 256)).
  - reflexivity.
  - apply repeat_length.
  - apply Forall_cons; [|apply Forall_nil].
    eapply good_stub;
      [reflexivity | apply repeat_length | reflexivity
      | apply constant_frame_rows | apply repeat_length].
Defined.

Lemma is_nan_false_not_nan (x : float) : is_nan x = false -> x <> nan.
Proof. intros H E. rewrite E in H. discriminate H. Qed.

Lemma turn_reports_hot_pixel_in_warm_room :
  exists max_temp,
    py_max [20; 30.5; 25]%float = inr max_temp /\
    In max_temp [20; 30.5; 25]%float /\
    iteration no_digits warm_room
    = [udp_sendto (message no_digits true max_temp) TD_IP TD_PORT;
       print_sent (message no_digits true max_temp); time_sleep 1].
Proof.
  destruct (turn_reports_hot_pixel no_digits warm_room [20; 30.5; 25]%float)
    as (max_temp & M & I & T).
  - reflexivity.
  - discriminate.
  - intros [E|[E|[E|[]]]];
      revert E; apply is_nan_false_not_nan; reflexivity.
  - exists max_temp. split; [exact M|]. split; [exact I|]. exact T.
Defined.

Lemma turn_nan_first_pixel_in_nan_room :
  iteration no_digits nan_room
  = [udp_sendto (message no_digits false nan) TD_IP TD_PORT;
     print_sent (message no_digits false nan); time_sleep 1].
Proof.
  exact (turn_nan_first_pixel no_digits nan_room [30.5; 25]%float eq_refl).
Defined.

Lemma zero_chirps_never_detect_at_two_frames :
  exists algo' printed,
    loop [reading ones; reading threes] algo_8_0 = (algo', printed, ok tt) /\
    length printed = length [reading ones; reading threes] /\
    Forall (fun status => status = (false, false)) printed.
Proof.
  apply (zero_chirps_never_detect
           Stub.blackmanharris Stub.blackmanharris
           Stub.fft_spectrum Stub.hypot
           [reading ones; reading threes] 8 8 algo_8_0).
  - vm_compute. reflexivity.
  - lia.
  - reflexivity.
  - apply Forall_cons; [|apply Forall_cons; [|apply Forall_nil]];
      (eapply good_stub;
       [reflexivity | reflexivity | reflexivity
       | apply constant_frame_rows | reflexivity]).
Defined.

Example other_update :
  update ones_but_first algo_8_2 = (algo_8_2_other, inr (false, false)).
Proof. vm_compute. reflexivity. Qed.

Lemma bins_below_detect_never_matter_at_first_bin :
  (false, false) = (false, false) /\
  same_from (Z.to_nat (num_samples_per_chirp algo_8_2 / 8))
    algo_8_2_first algo_8_2_other.
Proof.
  apply (bins_below_detect_never_matter
           Stub.blackmanharris Stub.blackmanharris
           Stub.fft_spectrum Stub.hypot
           ones ones_but_first algo_8_2 algo_8_2
           algo_8_2_first algo_8_2_other (false, false) (false, false)
           (repeat 1%float 8) [5; 1; 1; 1; 1; 1; 1; 1]%float algo_8_2_live).
  - cbn. lia.
  - unfold same_from, same_config. cbn. tauto.
  - apply sized_fresh.
  - vm_compute. reflexivity.
  - vm_compute. reflexivity.
  - split; [reflexivity|]. intros [|i] I; [cbn in I; lia|reflexivity].
  - exact first_update.
  - exact other_update.
Defined.

End Runs.
